(** * PromptEngine: template cache and substitution engine

    A shallow embedding of [src/lib/PromptCache.ts], [src/lib/TemplateEngine.ts]
    and [src/utils/VariableDefinitions.ts], with the properties of the
    specification stated and proved over it.

    Conventions of the embedding.
    - A JavaScript string is a [string]: one [ascii] per code unit (texts are
      restricted to the Latin-1 range).
    - A [Map<string,string>] is a [gmap string string]; every [Map] object
      lives in a heap of the world and is referred to by its location, so
      that copying and aliasing are visible.
    - A [Set<string>] is the list of its elements in insertion order, without
      duplicates: [for ... of] over a set visits them in that order.
    - A method is a state transformer over the world that either returns or
      throws; [async] methods are run to completion, with no other task
      interleaved at their [await]s.
    - Console output and the message and details of an error are diagnostic
      text and are left out; an error keeps its type tag. *)

From Stdlib Require Import Ascii.
From stdpp Require Import base option list gmap strings fin_maps.

(** ** JavaScript strings *)

Module JsString.

(** [s.endsWith(suffix)] *)
Definition endsWith (s suffix : string) : bool :=
  bool_decide (String.length suffix <= String.length s) &&
  bool_decide (String.substring (String.length s - String.length suffix)
                         (String.length suffix) s = suffix).

(** [s.startsWith(p)] *)
Fixpoint startsWith (s p : string) {struct p} : bool :=
  match p with
  | EmptyString => true
  | String a p' =>
      match s with
      | EmptyString => false
      | String b s' => bool_decide (a = b) && startsWith s' p'
      end
  end.

(** [GetSubstitution] of ECMA-262 for a string search value (there are no
    captures and no named captures): in the replacement template, [$$] is a
    dollar sign, [$&] the matched text, [$`] the text before the match and
    [$'] the text after it; every other character, and a dollar sign
    followed by anything else, stands for itself. *)
Fixpoint GetSubstitution (matched before after template : string) : string :=
  match template with
  | EmptyString => EmptyString
  | String c rest =>
      if bool_decide (c = "$"%char) then
        match rest with
        | EmptyString => String c EmptyString
        | String d rest' =>
            if bool_decide (d = "$"%char) then
              String "$" (GetSubstitution matched before after rest')
            else if bool_decide (d = "&"%char) then
              matched +:+ GetSubstitution matched before after rest'
            else if bool_decide (d = "`"%char) then
              before +:+ GetSubstitution matched before after rest'
            else if bool_decide (d = "'"%char) then
              after +:+ GetSubstitution matched before after rest'
            else String c (GetSubstitution matched before after rest)
        end
      else String c (GetSubstitution matched before after rest)
  end.

(** [s.slice(n)] *)
Fixpoint drop (n : nat) (s : string) : string :=
  match n, s with
  | 0, _ => s
  | S _, EmptyString => EmptyString
  | S n', String _ s' => drop n' s'
  end.

(** The loop of [String.prototype.replaceAll] for a string search value,
    read from left to right over the text.  [before] is the text already
    passed and [rest] the text ahead; [skip] counts the characters ahead
    that belong to the last match.  Outside a match, an occurrence of
    [search] at the current position is replaced and the search resumes
    [max 1 (length search)] characters further on; any other character is
    kept. *)
Fixpoint replaceAll_loop (search replaceValue before rest : string)
         (skip : nat) {struct rest} : string :=
  match skip with
  | S skip' =>
      match rest with
      | EmptyString => EmptyString
      | String c rest' =>
          replaceAll_loop search replaceValue (before +:+ String c EmptyString)
                          rest' skip'
      end
  | 0 =>
      if startsWith rest search then
        let replacement :=
          GetSubstitution search before
                          (drop (String.length search) rest) replaceValue in
        match rest with
        | EmptyString => replacement
        | String c rest' =>
            match String.length search with
            | 0 =>
                replacement +:+
                String c (replaceAll_loop search replaceValue
                            (before +:+ String c EmptyString) rest' 0)
            | S n =>
                replacement +:+
                replaceAll_loop search replaceValue
                  (before +:+ String c EmptyString) rest' n
            end
        end
      else
        match rest with
        | EmptyString => EmptyString
        | String c rest' =>
            String c (replaceAll_loop search replaceValue
                        (before +:+ String c EmptyString) rest' 0)
        end
  end.

(** [s.replaceAll(searchValue, replaceValue)], both strings *)
Definition replaceAll (s searchValue replaceValue : string) : string :=
  replaceAll_loop searchValue replaceValue EmptyString s 0.

End JsString.

(** ** Regular expressions *)

(** A [RegExp] enters the engine only as the argument of
    [String.prototype.match]; it is modelled by that function: [None] is
    [null], [Some l] the array of matched texts. *)
Record RegExp := { Symbol_match : string → option (list string) }.

Module DefaultPattern.

(** [.] without the [s] flag: any character but a line terminator.  Of the
    four line terminators of JavaScript, line feed and carriage return are
    characters of the model. *)
Definition isLineTerminator (c : ascii) : bool :=
  bool_decide (c = "010"%char) || bool_decide (c = "013"%char).

(** The part [(.*?)}}] of the pattern, tried at the start of [s]: the lazy
    star first tries to stop, so the match ends at the first ["}}"], and
    only characters that [.] accepts may come before it.  Returns the
    matched text. *)
Fixpoint lazy_body (s : string) : option string :=
  if JsString.startsWith s "}}" then Some "}}"
  else
    match s with
    | EmptyString => None
    | String c s' =>
        if isLineTerminator c then None
        else String c <$> lazy_body s'
    end.

(** One attempt of [/{{(.*?)}}/] at the start of [s] *)
Definition match_here (s : string) : option string :=
  match s with
  | String "{" (String "{" s') => (λ m, "{{" +:+ m) <$> lazy_body s'
  | _ => None
  end.

(** The matches of [/{{(.*?)}}/g] from left to right; [skip] counts the
    characters ahead that belong to the last match. *)
Fixpoint matches (s : string) (skip : nat) {struct s} : list string :=
  match s with
  | EmptyString => []
  | String _ s' =>
      match skip with
      | S skip' => matches s' skip'
      | 0 =>
          match match_here s with
          | Some m => m :: matches s' (String.length m - 1)
          | None => matches s' 0
          end
      end
  end.

(** [/{{(.*?)}}/g] under [String.prototype.match]: [null] without a match *)
Definition regexp : RegExp :=
  {| Symbol_match := λ s,
       match matches s 0 with
       | [] => None
       | ms => Some ms
       end |}.

End DefaultPattern.

(** ** Sets of strings, in insertion order *)

Module JsSet.

Definition add (x : string) (s : list string) : list string :=
  if bool_decide (x ∈ s) then s else s ++ [x].

(** [new Set(iterable)] *)
Definition from (xs : list string) : list string :=
  foldl (λ s x, add x s) [] xs.

End JsSet.

(** ** Errors *)

Inductive TemplateEngineErrorType :=
  | INITIALIZATION_ERROR
  | CACHE_ERROR
  | FILE_NOT_FOUND
  | VARIABLE_NOT_DEFINED
  | PROCESSING_ERROR
  | VALIDATION_ERROR.

(** What a [throw] carries: a [TemplateEngineError] with its type tag, or a
    value of any other class (an error of the file system, a [TypeError]). *)
Inductive Thrown :=
  | TemplateEngineError (type : TemplateEngineErrorType)
  | OtherError.

Global Instance TemplateEngineErrorType_eq_dec : EqDecision TemplateEngineErrorType.
Proof. solve_decision. Defined.

Global Instance Thrown_eq_dec : EqDecision Thrown.
Proof. solve_decision. Defined.

(** ** Interfaces of [types/interfaces] *)

Record VariableDefinition := {
  name : string;
  value : string;
  description : option string
}.

Record ProcessingOptions := {
  strictMode : option bool;
  validateVariables : option bool;
  variablePattern : option RegExp
}.

(** The object literal [{}] *)
Definition no_options : ProcessingOptions :=
  {| strictMode := None; validateVariables := None; variablePattern := None |}.

Record TemplateProcessingResult := {
  processedTemplate : string;
  variablesFound : list string;
  variablesReplaced : list string;
  undefinedVariables : list string
}.

(** ** Objects and the world *)

(** A reference to an object: its index in the heap of its class *)
Definition loc := nat.

Module TemplateEngineConfig.
Record t := mk {
  promptsDirectory : string;
  variableDefinitions : loc;              (* a [Map<string,string>] *)
  enableCaching : option bool;
  promptFileExtensions : option (list string)
}.
End TemplateEngineConfig.

(** The fields of a [VariableDefinitions] object; the field is assigned in
    the constructor only. *)
Record VariableDefinitionsObj := { variableMap : loc }.

(** The fields of a [PromptCache] object.  [cache] is private and is never
    handed out, so the map is kept in the object itself. *)
Module PromptCacheObj.
Record t := mk {
  cache : gmap string string;
  initialized : bool;
  promptsDirectory : string;
  promptFileExtensions : list string
}.
End PromptCacheObj.

(** The fields of a [TemplateEngine] object *)
Module TemplateEngineObj.
Record t := mk {
  promptCache : loc;
  variableDefinitions : VariableDefinitionsObj;
  config : TemplateEngineConfig.t;
  initialized : bool
}.
End TemplateEngineObj.

(** The source collaborator: [fs/promises] and [path].  [None] is a rejected
    promise. *)
Record FileSystem := {
  readdir : string → option (list string);
  readFile : string → option string;
  path_join : string → string → string
}.

Record World := mkWorld {
  maps : list (gmap string string);       (* the [Map<string,string>] objects *)
  caches : list PromptCacheObj.t;         (* the [PromptCache] objects *)
  engines : list TemplateEngineObj.t;     (* the [TemplateEngine] objects *)
  PromptCache_instance : option loc;      (* the static [PromptCache.instance] *)
  fs : FileSystem
}.

Definition set_maps (x : list (gmap string string)) (w : World) : World :=
  mkWorld x (caches w) (engines w) (PromptCache_instance w) (fs w).
Definition set_caches (x : list PromptCacheObj.t) (w : World) : World :=
  mkWorld (maps w) x (engines w) (PromptCache_instance w) (fs w).
Definition set_engines (x : list TemplateEngineObj.t) (w : World) : World :=
  mkWorld (maps w) (caches w) x (PromptCache_instance w) (fs w).
Definition set_PromptCache_instance (x : option loc) (w : World) : World :=
  mkWorld (maps w) (caches w) (engines w) x (fs w).

(** ** Computations that return or throw *)

Inductive Completion (A : Type) :=
  | Return (a : A)
  | Throw (e : Thrown).
Arguments Return {A} a.
Arguments Throw {A} e.

Definition M (A : Type) : Type := World → Completion A * World.

Definition ret {A} (a : A) : M A := λ w, (Return a, w).

Definition throw {A} (e : Thrown) : M A := λ w, (Throw e, w).

Definition bind {A B} (m : M A) (k : A → M B) : M B :=
  λ w, match m w with
       | (Return a, w') => k a w'
       | (Throw e, w') => (Throw e, w')
       end.

(** [try { m } catch (error) { handler error }] *)
Definition try_catch {A} (m : M A) (handler : Thrown → M A) : M A :=
  λ w, match m w with
       | (Return a, w') => (Return a, w')
       | (Throw e, w') => handler e w'
       end.

Notation "'let*' x := m 'in' k" := (bind m (λ x, k))
  (at level 10, x name, m at level 100, k at level 200).

(** [for (const x of xs) acc = body acc x] *)
Fixpoint for_of {A S} (xs : list A) (acc : S) (body : S → A → M S) : M S :=
  match xs with
  | [] => ret acc
  | x :: xs' => let* acc' := body acc x in for_of xs' acc' body
  end.

(** Reading through a reference.  Every reference the program holds is to a
    live object; for a location that holds none the model throws, as
    JavaScript does on a property access through [undefined]. *)
Definition deref {A} (heap : World → list A) (l : loc) : M A :=
  λ w, match heap w !! l with
       | Some x => (Return x, w)
       | None => (Throw OtherError, w)
       end.

(** ** [Map<string,string>] objects *)

Module JsMap.

(** [new Map()] and [new Map(entries)]: the fresh object comes last in the heap *)
Definition new (m : gmap string string) : M loc :=
  λ w, (Return (length (maps w)), set_maps (maps w ++ [m]) w).

Definition read (this : loc) : M (gmap string string) := deref maps this.

Definition write (this : loc) (m : gmap string string) : M unit :=
  let* _ := deref maps this in
  λ w, (Return tt, set_maps (<[this := m]> (maps w)) w).

(** [new Map(source)] *)
Definition copy (source : loc) : M loc :=
  let* m := read source in new m.

Definition get (this : loc) (key : string) : M (option string) :=
  let* m := read this in ret (m !! key).

Definition has (this : loc) (key : string) : M bool :=
  let* m := read this in ret (bool_decide (is_Some (m !! key))).

Definition set (this : loc) (key val : string) : M unit :=
  let* m := read this in write this (<[key := val]> m).

Definition clear (this : loc) : M unit := write this ∅.

(** The entries a [for ... of] over the map visits *)
Definition entries (this : loc) : M (list (string * string)) :=
  let* m := read this in ret (map_to_list m).

End JsMap.

(** ** [utils/VariableDefinitions.ts] *)

Module VariableDefinitions.

(** [setVariable(name, value)] *)
Definition setVariable (this : VariableDefinitionsObj) (name value : string) : M unit :=
  JsMap.set (variableMap this) name value.

(** [getVariable(name)]: [None] is [undefined] *)
Definition getVariable (this : VariableDefinitionsObj) (name : string) : M (option string) :=
  JsMap.get (variableMap this) name.

(** [hasVariable(name)] *)
Definition hasVariable (this : VariableDefinitionsObj) (name : string) : M bool :=
  JsMap.has (variableMap this) name.

(** [getVariableMap()]: [new Map(this.variableMap)] *)
Definition getVariableMap (this : VariableDefinitionsObj) : M loc :=
  JsMap.copy (variableMap this).

(** [setVariables(variables)]: a [Map] ([inl]) or an array of definitions
    ([inr]) *)
Definition setVariables (this : VariableDefinitionsObj)
           (variables : loc + list VariableDefinition) : M unit :=
  match variables with
  | inl map =>
      let* entries := JsMap.entries map in
      for_of entries tt (λ _ entry,
        JsMap.set (variableMap this) entry.1 entry.2)
  | inr array =>
      for_of array tt (λ _ varDef,
        JsMap.set (variableMap this) (name varDef) (value varDef))
  end.

(** [new VariableDefinitions(initialVariables)] *)
Definition new (initialVariables : option (loc + list VariableDefinition))
  : M VariableDefinitionsObj :=
  let* empty := JsMap.new ∅ in
  match initialVariables with
  | None => ret {| variableMap := empty |}
  | Some (inl map) =>
      let* copy := JsMap.copy map in
      ret {| variableMap := copy |}
  | Some (inr array) =>
      let* _ := for_of array tt (λ _ varDef,
                  JsMap.set empty (name varDef) (value varDef)) in
      ret {| variableMap := empty |}
  end.

(** [clear()] *)
Definition clear (this : VariableDefinitionsObj) : M unit :=
  JsMap.clear (variableMap this).

(** [size()] *)
Definition size (this : VariableDefinitionsObj) : M nat :=
  let* m := JsMap.read (variableMap this) in ret (size m).

End VariableDefinitions.

(** [createDefaultVariableDefinitions()] *)
Definition createDefaultVariableDefinitions : M VariableDefinitionsObj :=
  let* defaultVars := JsMap.new ∅ in
  let* _ := JsMap.set defaultVars "{{player_name}}" "John" in
  let* _ := JsMap.set defaultVars "{{character_name}}" "Jane" in
  let* _ := JsMap.set defaultVars "{{backstory}}" "I am a farmer" in
  let* _ := JsMap.set defaultVars "{{profession}}" "Farmer" in
  let* _ := JsMap.set defaultVars "{{option_amt}}" "3" in
  VariableDefinitions.new (Some (inl defaultVars)).

(** ** [lib/PromptCache.ts] *)

Module PromptCache.
Import PromptCacheObj.

Definition read (this : loc) : M PromptCacheObj.t := deref caches this.

(** An assignment to fields of [this] *)
Definition update (this : loc) (f : PromptCacheObj.t → PromptCacheObj.t) : M unit :=
  let* o := read this in
  λ w, (Return tt, set_caches (<[this := f o]> (caches w)) w).

(** The private constructor, with its default parameters *)
Definition new (promptsDirectory : option string)
           (promptFileExtensions : option (list string)) : M loc :=
  λ w, (Return (length (caches w)),
        set_caches (caches w ++
          [ {| cache := ∅;
               initialized := false;
               promptsDirectory := default "src/prompts" promptsDirectory;
               promptFileExtensions :=
                 default [".txt"; ".md"; ".prompt"] promptFileExtensions |} ]) w).

(** [PromptCache.getInstance(promptsDirectory, promptFileExtensions)] *)
Definition getInstance (promptsDirectory : option string)
           (promptFileExtensions : option (list string)) : M loc :=
  λ w, match PromptCache_instance w with
       | None =>
           (let* o := new promptsDirectory promptFileExtensions in
            let* _ := (λ w', (Return tt, set_PromptCache_instance (Some o) w')) in
            ret o) w
       | Some o => (Return o, w)
       end.

(** [configure(promptsDirectory, promptFileExtensions)] *)
Definition configure (this : loc) (dir : string)
           (exts : option (list string)) : M unit :=
  let* o := read this in
  if initialized o then throw (TemplateEngineError INITIALIZATION_ERROR)
  else
    update this (λ o, mk (cache o) (initialized o) dir
                         (default (promptFileExtensions o) exts)).

(** [scanPromptsDirectory()] *)
Definition scanPromptsDirectory (this : loc) : M (list string) :=
  let* o := read this in
  λ w, match readdir (fs w) (promptsDirectory o) with
       | Some files =>
           (Return (filter (λ file,
                      existsb (λ ext, JsString.endsWith file ext)
                              (promptFileExtensions o) = true) files), w)
       | None => (Throw (TemplateEngineError CACHE_ERROR), w)
       end.

(** One of the loads of [loadPromptFiles]: read, then cache *)
Definition loadPromptFile (this : loc) (fileName : string) : M unit :=
  let* o := read this in
  λ w, match readFile (fs w) (path_join (fs w) (promptsDirectory o) fileName) with
       | Some content =>
           update this (λ o, mk (<[fileName := content]> (cache o))
                                (initialized o) (promptsDirectory o)
                                (promptFileExtensions o)) w
       | None => (Throw OtherError, w)
       end.

(** [loadPromptFiles(promptFiles)].  The loads are started together and
    [Promise.all] is awaited: every load that can succeed writes its entry,
    and the call fails when one of them failed.  The loads are taken to
    complete in the order of [promptFiles].  When a read fails,
    [Promise.all] rejects while other reads may still be in flight; the
    world given here for that case is the one reached once every read has
    settled, and how much of it the cache holds at the moment of the
    failure is not determined by the source. *)
Definition loadPromptFiles (this : loc) (promptFiles : list string) : M unit :=
  let* failed := for_of promptFiles None (λ failed fileName,
                   try_catch (let* _ := loadPromptFile this fileName in ret failed)
                             (λ error, ret (Some (default error failed)))) in
  match failed with
  | Some error => throw error
  | None => ret tt
  end.

(** [initialize()] *)
Definition initialize (this : loc) : M unit :=
  try_catch
    (let* promptFiles := scanPromptsDirectory this in
     let* _ := loadPromptFiles this promptFiles in
     update this (λ o, mk (cache o) true (promptsDirectory o)
                          (promptFileExtensions o)))
    (λ _, throw (TemplateEngineError CACHE_ERROR)).

(** [getPrompt(fileName)] *)
Definition getPrompt (this : loc) (fileName : string) : M string :=
  let* o := read this in
  if negb (initialized o) then throw (TemplateEngineError INITIALIZATION_ERROR)
  else
    match cache o !! fileName with
    | None => throw (TemplateEngineError FILE_NOT_FOUND)
    | Some content => ret content
    end.

(** [getPromptWithFallback(fileName)] *)
Definition getPromptWithFallback (this : loc) (fileName : string) : M string :=
  let* o := read this in
  if negb (initialized o) then throw (TemplateEngineError INITIALIZATION_ERROR)
  else
    match cache o !! fileName with
    | Some content => ret content
    | None =>
        try_catch
          (let* diskContent :=
             (λ w, match readFile (fs w)
                           (path_join (fs w) (promptsDirectory o) fileName) with
                   | Some content => (Return content, w)
                   | None => (Throw OtherError, w)
                   end) in
           let* _ := update this (λ o, mk (<[fileName := diskContent]> (cache o))
                                          (initialized o) (promptsDirectory o)
                                          (promptFileExtensions o)) in
           ret diskContent)
          (λ _, throw (TemplateEngineError FILE_NOT_FOUND))
    end.

(** [isInitialized()] *)
Definition isInitialized (this : loc) : M bool :=
  let* o := read this in ret (initialized o).

(** [refresh()] *)
Definition refresh (this : loc) : M unit :=
  let* _ := update this (λ o, mk ∅ (initialized o) (promptsDirectory o)
                                 (promptFileExtensions o)) in
  let* _ := update this (λ o, mk (cache o) false (promptsDirectory o)
                                 (promptFileExtensions o)) in
  initialize this.

(** [hasPrompt(fileName)] *)
Definition hasPrompt (this : loc) (fileName : string) : M bool :=
  let* o := read this in ret (bool_decide (is_Some (cache o !! fileName))).

End PromptCache.

(** ** [lib/TemplateEngine.ts] *)

(** The second argument of the overloaded [processTemplate] *)
Inductive OverridesOrOptions :=
  | IsMap (variableOverrides : loc)
  | IsOptions (options : ProcessingOptions)
  | IsUndefined.

Module TemplateEngine.
Import TemplateEngineObj.

Definition read (this : loc) : M TemplateEngineObj.t := deref engines this.

(** [new TemplateEngine(config)] *)
Definition new (cfg : TemplateEngineConfig.t) : M loc :=
  let* variableDefinitions :=
    VariableDefinitions.new
      (Some (inl (TemplateEngineConfig.variableDefinitions cfg))) in
  let* promptCache :=
    PromptCache.getInstance
      (Some (TemplateEngineConfig.promptsDirectory cfg))
      (TemplateEngineConfig.promptFileExtensions cfg) in
  λ w, (Return (length (engines w)),
        set_engines (engines w ++
          [ {| promptCache := promptCache;
               variableDefinitions := variableDefinitions;
               config := cfg;
               initialized := false |} ]) w).

(** [initialize()] *)
Definition initialize (this : loc) : M unit :=
  try_catch
    (let* o := read this in
     let* _ := (if bool_decide (TemplateEngineConfig.enableCaching (config o) ≠ Some false)
                then PromptCache.initialize (promptCache o)
                else ret tt) in
     let* o := read this in
     λ w, (Return tt,
           set_engines (<[this := mk (promptCache o) (variableDefinitions o)
                                     (config o) true]> (engines w)) w))
    (λ _, throw (TemplateEngineError INITIALIZATION_ERROR)).

(** [readPromptFile(promptFileName)] *)
Definition readPromptFile (this : loc) (promptFileName : string) : M string :=
  let* o := read this in
  try_catch (PromptCache.getPrompt (promptCache o) promptFileName)
            (λ err, throw err).

(** [findUniqueVariablesRequired(promptFileData, options)] *)
Definition findUniqueVariablesRequired (promptFileData : string)
           (options : ProcessingOptions) : M (list string) :=
  try_catch
    (let variablePattern := default DefaultPattern.regexp (variablePattern options) in
     let variables := Symbol_match variablePattern promptFileData in
     match variables with
     | None => ret (JsSet.from [])
     | Some variables => ret (JsSet.from variables)
     end)
    (λ _, throw (TemplateEngineError PROCESSING_ERROR)).

(** [validateVariablesWithMap(variablesFound, variableMap)] *)
Definition validateVariablesWithMap (variablesFound : list string)
           (variableMap : VariableDefinitionsObj) : M bool :=
  if bool_decide (0 < length variablesFound) then
    let* undefinedVariables :=
      for_of variablesFound [] (λ undefinedVariables variable,
        let* defined := VariableDefinitions.hasVariable variableMap variable in
        if negb defined then ret (undefinedVariables ++ [variable])
        else ret undefinedVariables) in
    if bool_decide (0 < length undefinedVariables) then
      throw (TemplateEngineError VARIABLE_NOT_DEFINED)
    else ret true
  else throw (TemplateEngineError VALIDATION_ERROR).

(** The state of the substitution loop: the text and the two sets of the
    result that the loop fills *)
Record Substitution := {
  updatedPrompt : string;
  replaced : list string;
  unresolved : list string
}.

(** [processTemplate(promptFileName, variableOverridesOrOptions, options)] *)
Definition processTemplate (this : loc) (promptFileName : string)
           (variableOverridesOrOptions : OverridesOrOptions)
           (options : option ProcessingOptions) : M TemplateProcessingResult :=
  let options := default no_options options in
  let '(variableOverrides, processingOptions) :=
    match variableOverridesOrOptions with
    | IsMap map => (Some map, options)
    | IsOptions o => (None, o)
    | IsUndefined => (None, no_options)
    end in
  let* o := read this in
  if negb (initialized o) then throw (TemplateEngineError INITIALIZATION_ERROR)
  else
    try_catch
      (let* promptFileData := readPromptFile this promptFileName in
       let* variablesFound :=
         findUniqueVariablesRequired promptFileData processingOptions in
       let* baseline := VariableDefinitions.getVariableMap (variableDefinitions o) in
       let* combinedVariables := VariableDefinitions.new (Some (inl baseline)) in
       let* _ := match variableOverrides with
                 | Some map => VariableDefinitions.setVariables combinedVariables (inl map)
                 | None => ret tt
                 end in
       if bool_decide (length variablesFound = 0) then
         if bool_decide (strictMode processingOptions ≠ Some false) then
           throw (TemplateEngineError VALIDATION_ERROR)
         else
           ret {| processedTemplate := promptFileData;
                  variablesFound := variablesFound;
                  variablesReplaced := [];
                  undefinedVariables := [] |}
       else
         let* undefinedVariables :=
           if bool_decide (validateVariables processingOptions ≠ Some false) then
             try_catch
               (let* _ := validateVariablesWithMap variablesFound combinedVariables in
                ret [])
               (λ error,
                  if bool_decide (strictMode processingOptions ≠ Some false) then
                    throw error
                  else
                    for_of variablesFound [] (λ undefinedVariables variable,
                      let* defined :=
                        VariableDefinitions.hasVariable combinedVariables variable in
                      if negb defined then ret (JsSet.add variable undefinedVariables)
                      else ret undefinedVariables))
           else ret [] in
         let* final :=
           for_of variablesFound
             {| updatedPrompt := promptFileData;
                replaced := [];
                unresolved := undefinedVariables |}
             (λ acc variable,
                let* value := VariableDefinitions.getVariable combinedVariables variable in
                match value with
                | Some value =>
                    ret {| updatedPrompt :=
                             JsString.replaceAll (updatedPrompt acc) variable value;
                           replaced := JsSet.add variable (replaced acc);
                           unresolved := unresolved acc |}
                | None =>
                    ret {| updatedPrompt := updatedPrompt acc;
                           replaced := replaced acc;
                           unresolved := JsSet.add variable (unresolved acc) |}
                end) in
         ret {| processedTemplate := updatedPrompt final;
                variablesFound := variablesFound;
                variablesReplaced := replaced final;
                undefinedVariables := unresolved final |})
      (λ error,
         match error with
         | TemplateEngineError _ => throw error
         | OtherError => throw (TemplateEngineError PROCESSING_ERROR)
         end).

(** [processTemplateWithVariables(promptFileName, dynamicVariables, options)]:
    the variables are a [Map] ([inl]) or a plain object ([inr]), whose
    entries go into a new [Map] *)
Definition processTemplateWithVariables (this : loc) (promptFileName : string)
           (dynamicVariables : loc + gmap string string)
           (options : option ProcessingOptions) : M TemplateProcessingResult :=
  let options := default no_options options in
  let* variableMap := match dynamicVariables with
                      | inl map => ret map
                      | inr record => JsMap.new record
                      end in
  processTemplate this promptFileName (IsMap variableMap) (Some options).

(** [getRequiredVariables(promptFileName, options)] *)
Definition getRequiredVariables (this : loc) (promptFileName : string)
           (options : option ProcessingOptions) : M (list string) :=
  let options := default no_options options in
  let* promptFileData := readPromptFile this promptFileName in
  findUniqueVariablesRequired promptFileData options.

(** [replaceVariablesInPrompt(promptFileName)] *)
Definition replaceVariablesInPrompt (this : loc) (promptFileName : string) : M string :=
  let* result := processTemplate this promptFileName IsUndefined None in
  ret (processedTemplate result).

(** [updateVariableDefinitions(variables)] *)
Definition updateVariableDefinitions (this : loc) (variables : loc) : M unit :=
  let* o := read this in
  VariableDefinitions.setVariables (variableDefinitions o) (inl variables).

(** [getVariableDefinitions()] *)
Definition getVariableDefinitions (this : loc) : M loc :=
  let* o := read this in
  VariableDefinitions.getVariableMap (variableDefinitions o).

(** [isInitialized()] *)
Definition isInitialized (this : loc) : M bool :=
  let* o := read this in ret (initialized o).

(** [refreshCache()] *)
Definition refreshCache (this : loc) : M unit :=
  let* o := read this in PromptCache.refresh (promptCache o).

End TemplateEngine.

(** ** [index.ts] *)

Module Index.

(** [createTemplateEngine(promptsDirectory, customVariables)] *)
Definition createTemplateEngine (promptsDirectory : option string)
           (customVariables : option loc) : M loc :=
  let promptsDirectory := default "src/prompts" promptsDirectory in
  let* variableDefinitions :=
    match customVariables with
    | Some map => ret map
    | None =>
        let* defaults := createDefaultVariableDefinitions in
        VariableDefinitions.getVariableMap defaults
    end in
  TemplateEngine.new
    (TemplateEngineConfig.mk promptsDirectory variableDefinitions (Some true)
                             (Some [".txt"; ".md"; ".prompt"])).

(** [createAndInitializeTemplateEngine(promptsDirectory, customVariables)] *)
Definition createAndInitializeTemplateEngine (promptsDirectory : option string)
           (customVariables : option loc) : M loc :=
  let* engine := createTemplateEngine promptsDirectory customVariables in
  let* _ := TemplateEngine.initialize engine in
  ret engine.

End Index.

(** ** A concrete run

    A source with four items below ["prompts"], three of them with an
    accepted suffix, and one more item that appears only after the store was
    loaded.  Three maps of the caller: the baseline and two overrides. *)

Module Scenario.

Definition disk : FileSystem :=
  {| readdir := λ dir,
       if bool_decide (dir = "prompts")
       then Some ["A.txt"; "B.md"; "notes.log"; "E.txt"]
       else None;
     readFile := λ path,
       if bool_decide (path = "prompts/A.txt")
       then Some "Hello {{name}}, you are a {{role}}."
       else if bool_decide (path = "prompts/B.md") then Some "{{x}} and {{x}}"
       else if bool_decide (path = "prompts/E.txt") then Some "no tokens"
       else if bool_decide (path = "prompts/Q.txt") then Some "late {{x}}"
       else None;
     path_join := λ dir file, dir +:+ "/" +:+ file |}.

Definition baseline : gmap string string :=
  {[ "{{x}}" := "a"; "{{name}}" := "Bob" ]}.

Definition override : gmap string string := {[ "{{x}}" := "b" ]}.

(** An override whose value is a formula between doubled dollar signs *)
Definition formula : gmap string string := {[ "{{x}}" := "$$E$$" ]}.

(** Before any engine exists: the three maps of the caller are objects 0,
    1 and 2. *)
Definition start : World :=
  {| maps := [baseline; override; formula];
     caches := [];
     engines := [];
     PromptCache_instance := None;
     fs := disk |}.

Definition cfg : TemplateEngineConfig.t :=
  TemplateEngineConfig.mk "prompts" 0 None None.

(** Another configuration: another location and other suffixes *)
Definition cfg' : TemplateEngineConfig.t :=
  TemplateEngineConfig.mk "elsewhere" 0 None (Some [".log"]).

(** Engine 0 is constructed ... *)
Definition constructed : World := (TemplateEngine.new cfg start).2.

(** ... and initialized, which loads the shared store; *)
Definition ready : World := (TemplateEngine.initialize 0 constructed).2.

(** then engine 1 is constructed from the other configuration and is never
    initialized. *)
Definition second : World := (TemplateEngine.new cfg' ready).2.

Definition non_strict : ProcessingOptions :=
  {| strictMode := Some false; validateVariables := None; variablePattern := None |}.

(** The objects of these worlds: the store once loaded and the two
    engines.  The baseline of engine 0 is the map 4, a copy of map 0. *)
Definition store0 : PromptCacheObj.t :=
  PromptCacheObj.mk
    {[ "A.txt" := "Hello {{name}}, you are a {{role}}.";
       "B.md" := "{{x}} and {{x}}";
       "E.txt" := "no tokens" ]}
    true "prompts" [".txt"; ".md"; ".prompt"].

Definition engine0 : TemplateEngineObj.t :=
  TemplateEngineObj.mk 0 {| variableMap := 4 |} cfg true.

Definition engine1 : TemplateEngineObj.t :=
  TemplateEngineObj.mk 0 {| variableMap := 6 |} cfg' false.

End Scenario.

(** ** More runs

    Worlds for the life of the store: a store configured with a location
    that the source cannot list, the ready store over a source that went
    away, over a source one of whose files cannot be read, and after a
    fallback read of an item that the listing does not have. *)

Module Runs.
Import Scenario.

Definition unreachable : World := (TemplateEngine.new cfg' start).2.

Definition no_disk : FileSystem :=
  {| readdir := λ _, None;
     readFile := λ _, None;
     path_join := λ dir file, dir +:+ "/" +:+ file |}.

Definition flaky_disk : FileSystem :=
  {| readdir := readdir disk;
     readFile := λ path,
       if bool_decide (path = "prompts/E.txt") then None else readFile disk path;
     path_join := path_join disk |}.

Definition with_disk (d : FileSystem) (w : World) : World :=
  mkWorld (maps w) (caches w) (engines w) (PromptCache_instance w) d.

Definition offline : World := with_disk no_disk ready.

Definition flaky : World := with_disk flaky_disk ready.

Definition stale : World := (PromptCache.getPromptWithFallback 0 "Q.txt" ready).2.

Definition store_unready : PromptCacheObj.t :=
  PromptCacheObj.mk ∅ false "prompts" [".txt"; ".md"; ".prompt"].

Definition store_elsewhere : PromptCacheObj.t :=
  PromptCacheObj.mk ∅ false "elsewhere" [".log"].



Definition engine_constructed : TemplateEngineObj.t :=
  TemplateEngineObj.mk 0 {| variableMap := 4 |} cfg false.


Definition listing : list string := ["A.txt"; "B.md"; "notes.log"; "E.txt"].

Definition no_validation : ProcessingOptions :=
  {| strictMode := None; validateVariables := Some false; variablePattern := None |}.

Definition store_stale : PromptCacheObj.t :=
  PromptCacheObj.mk (<["Q.txt" := "late {{x}}"]> (PromptCacheObj.cache store0))
                    true "prompts" [".txt"; ".md"; ".prompt"].

End Runs.

(** ** Functions used in the statements *)

(** Writing the entries of a list one after the other *)
Definition insert_all (entries : list (string * string)) (m : gmap string string)
  : gmap string string :=
  foldl (λ acc entry, <[entry.1 := entry.2]> acc) m entries.

(** The options a call works with, after the overload is resolved *)
Definition processingOptions_of (variableOverridesOrOptions : OverridesOrOptions)
           (options : option ProcessingOptions) : ProcessingOptions :=
  match variableOverridesOrOptions with
  | IsMap _ => default no_options options
  | IsOptions o => o
  | IsUndefined => no_options
  end.

(** [strictMode !== false] and [validateVariables !== false] *)
Definition strict (options : ProcessingOptions) : bool :=
  bool_decide (strictMode options ≠ Some false).
Definition validating (options : ProcessingOptions) : bool :=
  bool_decide (validateVariables options ≠ Some false).

(** The set of tokens of a text under the pattern of the options *)
Definition discovered (options : ProcessingOptions) (text : string) : list string :=
  match Symbol_match (default DefaultPattern.regexp (variablePattern options)) text with
  | None => JsSet.from []
  | Some variables => JsSet.from variables
  end.

(** The body of the three loops over the discovered tokens, against the
    content [merged] of the combined map *)
Definition missing_step (merged : gmap string string)
           (undefinedVariables : list string) (variable : string) : list string :=
  if negb (bool_decide (is_Some (merged !! variable)))
  then undefinedVariables ++ [variable] else undefinedVariables.

Definition unresolved_step (merged : gmap string string)
           (undefinedVariables : list string) (variable : string) : list string :=
  if negb (bool_decide (is_Some (merged !! variable)))
  then JsSet.add variable undefinedVariables else undefinedVariables.

Definition substitution_step (merged : gmap string string)
           (acc : TemplateEngine.Substitution) (variable : string)
  : TemplateEngine.Substitution :=
  match merged !! variable with
  | Some value =>
      {| TemplateEngine.updatedPrompt :=
           JsString.replaceAll (TemplateEngine.updatedPrompt acc) variable value;
         TemplateEngine.replaced := JsSet.add variable (TemplateEngine.replaced acc);
         TemplateEngine.unresolved := TemplateEngine.unresolved acc |}
  | None =>
      {| TemplateEngine.updatedPrompt := TemplateEngine.updatedPrompt acc;
         TemplateEngine.replaced := TemplateEngine.replaced acc;
         TemplateEngine.unresolved := JsSet.add variable (TemplateEngine.unresolved acc) |}
  end.

(** What the [try] block of [processTemplate] completes with, once the text
    is fetched, its tokens are found and the combined map holds [merged] *)
Definition try_block (text : string) (found : list string)
           (merged : gmap string string) (options : ProcessingOptions)
  : Completion TemplateProcessingResult :=
  if bool_decide (length found = 0) then
    if strict options then Throw (TemplateEngineError VALIDATION_ERROR)
    else Return {| processedTemplate := text;
                   variablesFound := found;
                   variablesReplaced := [];
                   undefinedVariables := [] |}
  else
    match
      (if validating options then
         if bool_decide (0 < length (foldl (missing_step merged) [] found)) then
           if strict options then Throw (TemplateEngineError VARIABLE_NOT_DEFINED)
           else Return (foldl (unresolved_step merged) [] found)
         else Return []
       else Return [])
    with
    | Throw e => Throw e
    | Return undefinedVariables =>
        let final :=
          foldl (substitution_step merged)
                {| TemplateEngine.updatedPrompt := text;
                   TemplateEngine.replaced := [];
                   TemplateEngine.unresolved := undefinedVariables |} found in
        Return {| processedTemplate := TemplateEngine.updatedPrompt final;
                  variablesFound := found;
                  variablesReplaced := TemplateEngine.replaced final;
                  undefinedVariables := TemplateEngine.unresolved final |}
    end.

(** The combined map: the entries of the override, where there is one, over
    those of the baseline *)
Definition merge (base : gmap string string) (overrides : option (gmap string string))
  : gmap string string :=
  match overrides with
  | Some ov => ov ∪ base
  | None => base
  end.

(** [pieces] and [last] with [separator] between them *)
Fixpoint join (separator : string) (pieces : list string) (last : string) : string :=
  match pieces with
  | [] => last
  | piece :: pieces' => piece +:+ separator +:+ join separator pieces' last
  end.

(** No occurrence of [search] starts at one of the first [n] positions of
    [text]. *)
Fixpoint no_occurrence_before (search text : string) (n : nat) : bool :=
  match n with
  | 0 => true
  | S n' =>
      negb (JsString.startsWith text search) &&
      match text with
      | EmptyString => true
      | String _ text' => no_occurrence_before search text' n'
      end
  end.

(** [join search pieces last] cut at the occurrences of [search] that a scan
    from the left meets: none starts inside a piece or inside [last]. *)
Fixpoint separated (search : string) (pieces : list string) (last : string) : bool :=
  match pieces with
  | [] => no_occurrence_before search last (String.length last)
  | piece :: pieces' =>
      no_occurrence_before search (join search pieces last) (String.length piece) &&
      separated search pieces' last
  end.

(** A dollar sign occurs in the string. *)
Fixpoint has_dollar (s : string) : bool :=
  match s with
  | EmptyString => false
  | String c s' => bool_decide (c = "$"%char) || has_dollar s'
  end.

(** [hasVariable] on a map with the content [merged] *)
Definition is_defined (merged : gmap string string) (variable : string) : bool :=
  bool_decide (is_Some (merged !! variable)).

(** The override map of a call, as the world holds it *)
Definition overrides_of (w : World) (variableOverridesOrOptions : OverridesOrOptions)
  : option (gmap string string) :=
  match variableOverridesOrOptions with
  | IsMap map => maps w !! map
  | _ => None
  end.

(** An override map that is passed is an object of the world. *)
Definition overrides_live (w : World) (variableOverridesOrOptions : OverridesOrOptions)
  : Prop :=
  match variableOverridesOrOptions with
  | IsMap map => is_Some (maps w !! map)
  | _ => True
  end.

(** Looking a token up in the override first and in the baseline otherwise *)
Definition lookup_layers (base : gmap string string)
           (overrides : option (gmap string string)) (token : string) : option string :=
  match overrides ≫= (.!! token) with
  | Some value => Some value
  | None => base !! token
  end.

(** The text after the substitution loop: the tokens in the order of their
    discovery, each defined one replaced throughout the text as it stands *)
Definition substitute (merged : gmap string string) (found : list string)
           (text : string) : string :=
  foldl (λ acc token,
           match merged !! token with
           | Some value => JsString.replaceAll acc token value
           | None => acc
           end) text found.

(** No character of the string is a line terminator. *)
Fixpoint single_line (s : string) : bool :=
  match s with
  | EmptyString => true
  | String c s' => negb (DefaultPattern.isLineTerminator c) && single_line s'
  end.

(** A file name that [scanPromptsDirectory] keeps *)
Definition accepted (extensions : list string) (file : string) : Prop :=
  existsb (λ ext, JsString.endsWith file ext) extensions = true.

Global Instance accepted_dec extensions file : Decision (accepted extensions file).
Proof. unfold accepted. apply _. Defined.

(** The files that [scanPromptsDirectory] keeps of a listing *)
Definition kept (extensions : list string) (files : list string) : list string :=
  filter (λ file, existsb (λ ext, JsString.endsWith file ext) extensions = true) files.

(** The source can read the item [file] below [dir]. *)
Definition readable (disk : FileSystem) (dir file : string) : bool :=
  bool_decide (is_Some (readFile disk (path_join disk dir file))).

(** The cache after the loads of [files] that succeed *)
Definition loaded (disk : FileSystem) (dir : string) (files : list string)
           (cache : gmap string string) : gmap string string :=
  foldl (λ c file,
           match readFile disk (path_join disk dir file) with
           | Some content => <[file := content]> c
           | None => c
           end) cache files.

(** The value of the last definition of [name] in an array *)
Definition last_definition (array : list VariableDefinition) (variable : string)
  : option string :=
  value <$> last (filter (λ varDef, name varDef = variable) array).

(** * Properties *)

(** ** Running computations *)

Section Running.
Context {A B : Type}.

Lemma bind_return (m : M A) (k : A → M B) w a w' :
  m w = (Return a, w') → bind m k w = k a w'.
Proof. unfold bind. by intros ->. Qed.

Lemma bind_throw (m : M A) (k : A → M B) w e w' :
  m w = (Throw e, w') → bind m k w = (Throw e, w').
Proof. unfold bind. by intros ->. Qed.

Lemma deref_live (heap : World → list A) l x w :
  heap w !! l = Some x → deref heap l w = (Return x, w).
Proof. unfold deref. by intros ->. Qed.

Lemma deref_world (heap : World → list A) l w : (deref heap l w).2 = w.
Proof. unfold deref. by destruct (heap w !! l). Qed.

End Running.

(** A loop whose body only reads the world is a fold. *)
Lemma for_of_pure {A S} (f : S → A → S) (body : S → A → M S) w xs :
  (∀ acc x, body acc x w = (Return (f acc x), w)) →
  ∀ acc, for_of xs acc body w = (Return (foldl f acc xs), w).
Proof.
  intros Hbody. induction xs as [|x xs IH]; intros acc; cbn [for_of foldl]; [done|].
  erewrite bind_return by apply Hbody. apply IH.
Qed.

(** ** Maps in the heap *)

Section Maps.
Implicit Types (w : World) (m : gmap string string).

Lemma set_maps_set_maps x y w : set_maps x (set_maps y w) = set_maps x w.
Proof. done. Qed.

Lemma JsMap_read_live w l m :
  maps w !! l = Some m → JsMap.read l w = (Return m, w).
Proof. apply deref_live. Qed.

Lemma JsMap_get_live w l m key :
  maps w !! l = Some m → JsMap.get l key w = (Return (m !! key), w).
Proof.
  intros H. unfold JsMap.get. by erewrite bind_return by by apply JsMap_read_live.
Qed.

Lemma JsMap_has_live w l m key :
  maps w !! l = Some m →
  JsMap.has l key w = (Return (bool_decide (is_Some (m !! key))), w).
Proof.
  intros H. unfold JsMap.has. by erewrite bind_return by by apply JsMap_read_live.
Qed.

Lemma JsMap_set_live w l m key val :
  maps w !! l = Some m →
  JsMap.set l key val w
  = (Return tt, set_maps (<[l := <[key := val]> m]> (maps w)) w).
Proof.
  intros H. unfold JsMap.set, JsMap.write.
  erewrite bind_return by by apply JsMap_read_live.
  by erewrite bind_return by by apply deref_live.
Qed.

Lemma JsMap_copy_live w l m :
  maps w !! l = Some m →
  JsMap.copy l w = (Return (length (maps w)), set_maps (maps w ++ [m]) w).
Proof.
  intros H. unfold JsMap.copy.
  by erewrite bind_return by by apply JsMap_read_live.
Qed.

Lemma insert_all_lookup_in entries m k v :
  NoDup entries.*1 → (k, v) ∈ entries → insert_all entries m !! k = Some v.
Proof.
  revert m. induction entries as [|[k' v'] es IH]; intros m Hnd Hin.
  - by apply elem_of_nil in Hin.
  - simpl in *. apply NoDup_cons in Hnd as [Hk' Hnd].
    apply elem_of_cons in Hin as [[= <- <-]|Hin]; [|by apply IH].
    clear IH Hnd. revert m. induction es as [|[k2 v2] es IH]; intros m; simpl in *.
    + by rewrite lookup_insert_eq.
    + apply not_elem_of_cons in Hk' as [Hne Hk']. specialize (IH Hk').
      rewrite insert_insert_ne by done. apply IH.
Qed.

Lemma insert_all_lookup_out entries m k :
  k ∉ entries.*1 → insert_all entries m !! k = m !! k.
Proof.
  revert m. induction entries as [|[k' v'] es IH]; intros m Hk; simpl in *; [done|].
  apply not_elem_of_cons in Hk as [Hne Hk].
  rewrite IH by done. by rewrite lookup_insert_ne.
Qed.

(** Writing every entry of [source] into [target]: the entries of [source]
    win. *)
Lemma insert_all_union source target :
  insert_all (map_to_list source) target = source ∪ target.
Proof.
  apply map_eq. intros k. rewrite lookup_union.
  destruct (source !! k) as [v|] eqn:Hk.
  - rewrite (insert_all_lookup_in _ _ k v).
    + by destruct (target !! k).
    + apply NoDup_fst_map_to_list.
    + by apply elem_of_map_to_list.
  - rewrite insert_all_lookup_out.
    + by destruct (target !! k).
    + intros Hin. apply list_elem_of_fmap in Hin as [[k' v] [-> Hin]].
      apply elem_of_map_to_list in Hin. simpl in Hk. congruence.
Qed.

Lemma for_of_set w l entries :
  ∀ m, maps w !! l = Some m →
  for_of entries tt (λ _ entry, JsMap.set l entry.1 entry.2) w
  = (Return tt, set_maps (<[l := insert_all entries m]> (maps w)) w).
Proof.
  revert w. induction entries as [|[k v] es IH]; intros w m Hl; simpl.
  - unfold ret. f_equal. destruct w; unfold set_maps; simpl in *.
    by rewrite list_insert_id.
  - erewrite bind_return by by apply JsMap_set_live.
    erewrite IH.
    + rewrite set_maps_set_maps. simpl. by rewrite list_insert_insert_eq.
    + simpl. apply list_lookup_insert_eq. by eapply lookup_lt_Some.
Qed.

(** [setVariables] with a [Map] leaves in the target the union in which
    the argument's entries win. *)
Lemma setVariables_live w this target variables source :
  maps w !! variableMap this = Some target →
  maps w !! variables = Some source →
  VariableDefinitions.setVariables this (inl variables) w
  = (Return tt, set_maps (<[variableMap this := source ∪ target]> (maps w)) w).
Proof.
  intros Ht Hs. unfold VariableDefinitions.setVariables, JsMap.entries.
  erewrite bind_return; last first.
  { erewrite bind_return by by apply JsMap_read_live. done. }
  erewrite for_of_set by done. by rewrite insert_all_union.
Qed.

End Maps.

(** ** The template store *)

Section Store.
Import PromptCacheObj.
Implicit Types (w : World) (o : PromptCacheObj.t).

Lemma PromptCache_read_live w this o :
  caches w !! this = Some o → PromptCache.read this w = (Return o, w).
Proof. apply deref_live. Qed.

Lemma PromptCache_update_live w this o f :
  caches w !! this = Some o →
  PromptCache.update this f w
  = (Return tt, set_caches (<[this := f o]> (caches w)) w).
Proof.
  intros H. unfold PromptCache.update.
  by erewrite bind_return by by apply PromptCache_read_live.
Qed.

Lemma getPrompt_run w this o fileName :
  caches w !! this = Some o →
  PromptCache.getPrompt this fileName w
  = (if initialized o then
       match cache o !! fileName with
       | Some content => Return content
       | None => Throw (TemplateEngineError FILE_NOT_FOUND)
       end
     else Throw (TemplateEngineError INITIALIZATION_ERROR), w).
Proof.
  intros H. unfold PromptCache.getPrompt.
  erewrite bind_return by by apply PromptCache_read_live.
  destruct (initialized o); [|done]. simpl.
  by destruct (cache o !! fileName).
Qed.

Lemma getPrompt_world w this fileName :
  (PromptCache.getPrompt this fileName w).2 = w.
Proof.
  unfold PromptCache.getPrompt, bind, PromptCache.read, deref.
  destruct (caches w !! this) as [o|]; [|done].
  destruct (initialized o); [|done]. simpl.
  by destruct (cache o !! fileName).
Qed.

Lemma hasPrompt_run w this o fileName :
  caches w !! this = Some o →
  PromptCache.hasPrompt this fileName w
  = (Return (bool_decide (is_Some (cache o !! fileName))), w).
Proof.
  intros H. unfold PromptCache.hasPrompt.
  by erewrite bind_return by by apply PromptCache_read_live.
Qed.

(** C6, as amended: on a store that is not ready [getPrompt] fails with
    [INITIALIZATION_ERROR]; on a ready store it fails with [FILE_NOT_FOUND]
    when the identifier is absent from the cache; and whenever it succeeds
    it returns the content cached for the identifier.  The world is left
    as it was. *)
Theorem getPrompt_spec w this o fileName :
  caches w !! this = Some o →
  (initialized o = false →
     (PromptCache.getPrompt this fileName w).1
     = Throw (TemplateEngineError INITIALIZATION_ERROR)) ∧
  (initialized o = true → cache o !! fileName = None →
     (PromptCache.getPrompt this fileName w).1
     = Throw (TemplateEngineError FILE_NOT_FOUND)) ∧
  (∀ content,
     (PromptCache.getPrompt this fileName w).1 = Return content →
     initialized o = true ∧ cache o !! fileName = Some content) ∧
  (PromptCache.getPrompt this fileName w).2 = w.
Proof.
  intros H. rewrite (getPrompt_run w this o) by done. simpl.
  split; [by intros ->|]. split; [by intros -> ->|]. split; [|done].
  intros content. destruct (initialized o); [|done].
  destruct (cache o !! fileName); [|done]. by intros [= ->].
Qed.

(** C7: on an initialized store that does not hold the identifier,
    [getPromptWithFallback] reads the item from the source.  When the read
    succeeds the content is returned and cached, so that [getPrompt] and
    [hasPrompt] find it afterwards; when the read fails the call fails
    with [FILE_NOT_FOUND], and in no other case. *)
Theorem getPromptWithFallback_miss w this o fileName :
  caches w !! this = Some o →
  initialized o = true →
  cache o !! fileName = None →
  let r := PromptCache.getPromptWithFallback this fileName w in
  match readFile (fs w) (path_join (fs w) (promptsDirectory o) fileName) with
  | Some content =>
      r.1 = Return content ∧
      (PromptCache.getPrompt this fileName r.2).1 = Return content ∧
      (PromptCache.hasPrompt this fileName r.2).1 = Return true
  | None => r.1 = Throw (TemplateEngineError FILE_NOT_FOUND)
  end.
Proof.
  intros H Hinit Hmiss r. subst r. unfold PromptCache.getPromptWithFallback.
  erewrite bind_return by by apply PromptCache_read_live.
  rewrite Hinit, Hmiss. simpl. unfold try_catch.
  destruct (readFile _ _) as [content|] eqn:Hread.
  - erewrite bind_return by by rewrite Hread.
    erewrite bind_return by by apply PromptCache_update_live.
    simpl. split; [done|].
    set (o' := mk _ _ _ _).
    assert (caches (set_caches (<[this:=o']> (caches w)) w) !! this = Some o') as H'.
    { simpl. apply list_lookup_insert_eq. by eapply lookup_lt_Some. }
    rewrite (getPrompt_run _ this o'), (hasPrompt_run _ this o') by done.
    subst o'. simpl. by rewrite Hinit, lookup_insert_eq.
  - by erewrite bind_throw by by rewrite Hread.
Qed.

(** Once the singleton exists, [getInstance] returns it whatever its
    arguments are, and changes nothing. *)
Lemma getInstance_existing w this dir exts :
  PromptCache_instance w = Some this →
  PromptCache.getInstance dir exts w = (Return this, w).
Proof. unfold PromptCache.getInstance. by intros ->. Qed.

End Store.

(** ** The substitution engine *)

Section Engine.
Import TemplateEngineObj.
Implicit Types (w : World) (o : TemplateEngineObj.t).

Lemma TemplateEngine_read_live w this o :
  engines w !! this = Some o → TemplateEngine.read this w = (Return o, w).
Proof. apply deref_live. Qed.

Lemma readPromptFile_run w this o fileName :
  engines w !! this = Some o →
  TemplateEngine.readPromptFile this fileName w
  = ((PromptCache.getPrompt (promptCache o) fileName w).1, w).
Proof.
  intros H. unfold TemplateEngine.readPromptFile.
  erewrite bind_return by by apply TemplateEngine_read_live.
  unfold try_catch, throw.
  pose proof (getPrompt_world w (promptCache o) fileName) as Hw.
  destruct (PromptCache.getPrompt _ _ _) as [[c|e] w']; simpl in *; by subst.
Qed.

Lemma findUniqueVariablesRequired_run w text options :
  TemplateEngine.findUniqueVariablesRequired text options w
  = (Return (discovered options text), w).
Proof.
  unfold TemplateEngine.findUniqueVariablesRequired, try_catch, discovered.
  by destruct (Symbol_match _ _).
Qed.

Lemma VariableDefinitions_new_run w map :
  VariableDefinitions.new (Some (inl map)) w
  = match (maps w ++ [∅]) !! map with
    | Some m => (Return {| variableMap := S (length (maps w)) |},
                 set_maps (maps w ++ [∅; m]) w)
    | None => (Throw OtherError, set_maps (maps w ++ [∅]) w)
    end.
Proof.
  unfold VariableDefinitions.new.
  erewrite bind_return by done.
  destruct (_ !! map) as [m|] eqn:Hm.
  - erewrite bind_return by by apply JsMap_copy_live.
    unfold ret. simpl. rewrite length_app. simpl.
    by rewrite Nat.add_1_r, <- app_assoc.
  - erewrite bind_throw; [done|]. unfold JsMap.copy.
    erewrite bind_throw; [done|]. unfold JsMap.read, deref. cbn [maps set_maps].
    by rewrite Hm.
Qed.

Lemma VariableDefinitions_new_live w map m :
  maps w !! map = Some m →
  VariableDefinitions.new (Some (inl map)) w
  = (Return {| variableMap := S (length (maps w)) |},
     set_maps (maps w ++ [∅; m]) w).
Proof.
  intros H. rewrite VariableDefinitions_new_run.
  by rewrite (lookup_app_l_Some _ _ _ _ H).
Qed.

Lemma hasVariable_live w vd m key :
  maps w !! variableMap vd = Some m →
  VariableDefinitions.hasVariable vd key w
  = (Return (bool_decide (is_Some (m !! key))), w).
Proof. apply JsMap_has_live. Qed.

Lemma getVariable_live w vd m key :
  maps w !! variableMap vd = Some m →
  VariableDefinitions.getVariable vd key w = (Return (m !! key), w).
Proof. apply JsMap_get_live. Qed.

Lemma validateVariablesWithMap_run w vd merged found :
  maps w !! variableMap vd = Some merged →
  TemplateEngine.validateVariablesWithMap found vd w
  = (if bool_decide (0 < length found) then
       if bool_decide (0 < length (foldl (missing_step merged) [] found))
       then Throw (TemplateEngineError VARIABLE_NOT_DEFINED)
       else Return true
     else Throw (TemplateEngineError VALIDATION_ERROR), w).
Proof.
  intros H. unfold TemplateEngine.validateVariablesWithMap.
  case_bool_decide; [|done].
  erewrite bind_return; last first.
  { apply (for_of_pure (missing_step merged)). intros acc x.
    erewrite bind_return by by eapply hasVariable_live.
    unfold missing_step. by destruct (negb _). }
  by case_bool_decide.
Qed.

(** The loops of [processTemplate] only read the combined map. *)
Lemma unresolved_loop_run w vd merged found :
  maps w !! variableMap vd = Some merged →
  for_of found [] (λ undefinedVariables variable,
    let* defined := VariableDefinitions.hasVariable vd variable in
    if negb defined then ret (JsSet.add variable undefinedVariables)
    else ret undefinedVariables) w
  = (Return (foldl (unresolved_step merged) [] found), w).
Proof.
  intros H. apply (for_of_pure (unresolved_step merged)). intros acc x.
  erewrite bind_return by by eapply hasVariable_live.
  unfold unresolved_step. by destruct (negb _).
Qed.

Lemma substitution_loop_run w vd merged found init :
  maps w !! variableMap vd = Some merged →
  for_of found init (λ acc variable,
    let* value := VariableDefinitions.getVariable vd variable in
    match value with
    | Some value =>
        ret {| TemplateEngine.updatedPrompt :=
                 JsString.replaceAll (TemplateEngine.updatedPrompt acc) variable value;
               TemplateEngine.replaced :=
                 JsSet.add variable (TemplateEngine.replaced acc);
               TemplateEngine.unresolved := TemplateEngine.unresolved acc |}
    | None =>
        ret {| TemplateEngine.updatedPrompt := TemplateEngine.updatedPrompt acc;
               TemplateEngine.replaced := TemplateEngine.replaced acc;
               TemplateEngine.unresolved :=
                 JsSet.add variable (TemplateEngine.unresolved acc) |}
    end) w
  = (Return (foldl (substitution_step merged) init found), w).
Proof.
  intros H. apply (for_of_pure (substitution_step merged)). intros acc x.
  erewrite bind_return by by eapply getVariable_live.
  unfold substitution_step. by destruct (merged !! x).
Qed.

(** The validation step of [processTemplate], with its local recovery *)
Lemma validation_run w vd merged found options :
  maps w !! variableMap vd = Some merged →
  length found ≠ 0 →
  (if bool_decide (validateVariables options ≠ Some false) then
     try_catch
       (let* _ := TemplateEngine.validateVariablesWithMap found vd in ret [])
       (λ error,
          if bool_decide (strictMode options ≠ Some false) then throw error
          else
            for_of found [] (λ undefinedVariables variable,
              let* defined := VariableDefinitions.hasVariable vd variable in
              if negb defined then ret (JsSet.add variable undefinedVariables)
              else ret undefinedVariables))
   else ret []) w
  = (if validating options then
       if bool_decide (0 < length (foldl (missing_step merged) [] found)) then
         if strict options then Throw (TemplateEngineError VARIABLE_NOT_DEFINED)
         else Return (foldl (unresolved_step merged) [] found)
       else Return []
     else Return [], w).
Proof.
  intros Hm Hlen. unfold validating, strict.
  destruct (bool_decide (validateVariables options ≠ Some false)); [|done].
  unfold try_catch, bind.
  rewrite (validateVariablesWithMap_run w vd merged) by done.
  rewrite (bool_decide_eq_true_2 (0 < length found)) by lia.
  case_bool_decide; [|done].
  destruct (bool_decide (strictMode options ≠ Some false)); [done|].
  by apply unresolved_loop_run.
Qed.

(** [processTemplate] on a live engine whose baseline map is live, with a
    live override map if there is one.  A failed fetch is passed on and
    leaves the world as it was.  Otherwise three maps are allocated, the
    last of which ends as the combined map, no object that existed before
    is written, and the call completes as [try_block] says. *)
Lemma processTemplate_run w this o base arg options fileName :
  engines w !! this = Some o →
  initialized o = true →
  maps w !! variableMap (variableDefinitions o) = Some base →
  overrides_live w arg →
  TemplateEngine.processTemplate this fileName arg options w
  = match (PromptCache.getPrompt (promptCache o) fileName w).1 with
    | Throw (TemplateEngineError type) => (Throw (TemplateEngineError type), w)
    | Throw OtherError => (Throw (TemplateEngineError PROCESSING_ERROR), w)
    | Return text =>
        let popts := processingOptions_of arg options in
        let merged := merge base (overrides_of w arg) in
        (try_block text (discovered popts text) merged popts,
         set_maps (maps w ++ [base; ∅; merged]) w)
    end.
Proof.
  intros Ho Hinit Hbase Hov. unfold TemplateEngine.processTemplate.
  set (ov := overrides_of w arg).
  set (popts := processingOptions_of arg options).
  set (overrides := match arg with IsMap map => Some map | _ => None end).
  replace (match arg with
           | IsMap map => (Some map, default no_options options)
           | IsOptions o0 => (None, o0)
           | IsUndefined => (None, no_options)
           end) with (overrides, popts) by by destruct arg.
  cbv beta iota.
  erewrite bind_return by by apply TemplateEngine_read_live.
  rewrite Hinit. cbn [negb]. unfold try_catch at 1.
  unfold bind at 1. rewrite (readPromptFile_run w this o) by done.
  destruct (PromptCache.getPrompt _ _ _).1 as [text|[type|]]; [|done..].
  erewrite bind_return by apply findUniqueVariablesRequired_run.
  erewrite bind_return by by apply JsMap_copy_live.
  set (w1 := set_maps (maps w ++ [base]) w).
  erewrite bind_return; last first.
  { apply (VariableDefinitions_new_live w1 _ base). subst w1. cbn [maps set_maps].
    rewrite lookup_app_r by done. by rewrite Nat.sub_diag. }
  set (combined := {| variableMap := S (length (maps w1)) |}).
  set (w2 := set_maps (maps w1 ++ [∅; base]) w1).
  set (wf := set_maps (maps w ++ [base; ∅; merge base ov]) w).
  assert (maps w2 = maps w ++ [base; ∅; base]) as Hw2.
  { subst w2 w1. cbn [maps set_maps]. by rewrite <- app_assoc. }
  assert (variableMap combined = length (maps w) + 2) as Hc.
  { subst combined w1. cbn [variableMap maps set_maps]. rewrite length_app. simpl. lia. }
  assert ((match overrides with
           | Some map => VariableDefinitions.setVariables combined (inl map)
           | None => ret tt
           end) w2 = (Return tt, wf)) as Hset.
  { subst overrides ov wf. destruct arg as [map| |]; cbn [overrides_of merge].
    - destruct Hov as [m Hov]. rewrite Hov. cbn [merge].
      erewrite (setVariables_live w2 combined base map m).
      + f_equal. unfold set_maps. rewrite Hw2, Hc. subst w2 w1. simpl.
        f_equal. rewrite insert_app_r_alt by lia.
        by replace (length (maps w) + 2 - length (maps w)) with 2 by lia.
      + rewrite Hw2, Hc. rewrite lookup_app_r by lia.
        by replace (length (maps w) + 2 - length (maps w)) with 2 by lia.
      + rewrite Hw2. by apply lookup_app_l_Some.
    - unfold ret. f_equal. subst w2 w1. unfold set_maps. simpl.
      by rewrite <- app_assoc.
    - unfold ret. f_equal. subst w2 w1. unfold set_maps. simpl.
      by rewrite <- app_assoc. }
  erewrite bind_return by apply Hset.
  assert (maps wf !! variableMap combined = Some (merge base ov)) as Hm.
  { rewrite Hc. subst wf. cbn [maps set_maps]. rewrite lookup_app_r by lia.
    by replace (length (maps w) + 2 - length (maps w)) with 2 by lia. }
  clearbody wf combined. clear Hset Hw2 Hc w1 w2.
  unfold try_block.
  case_bool_decide as Hlen.
  { unfold strict, throw, ret. by destruct (bool_decide (strictMode popts ≠ Some false)). }
  unfold bind at 1.
  rewrite (validation_run wf combined (merge base ov)) by done.
  destruct (if validating popts then _ else _) as [undefinedVariables|e] eqn:Hv.
  - erewrite bind_return by by apply substitution_loop_run.
    reflexivity.
  - destruct (validating popts); [|done].
    case_bool_decide; [|done]. destruct (strict popts); [|done].
    by injection Hv as <-.
Qed.

End Engine.

(** ** The sets of a result *)

Section ResultSets.
Implicit Types (merged : gmap string string) (found : list string).

Lemma JsSet_add_elem x y (s : list string) : x ∈ JsSet.add y s ↔ x = y ∨ x ∈ s.
Proof.
  unfold JsSet.add. case_bool_decide as Hy.
  - split; [by right|]. by intros [->|].
  - rewrite elem_of_app, list_elem_of_singleton. tauto.
Qed.

Lemma JsSet_add_NoDup y (s : list string) : NoDup s → NoDup (JsSet.add y s).
Proof.
  intros Hs. unfold JsSet.add. case_bool_decide as Hy; [done|].
  apply NoDup_app. split; [done|]. split; [|apply NoDup_singleton].
  intros x Hx ->%list_elem_of_singleton. done.
Qed.

Lemma JsSet_from_NoDup xs : NoDup (JsSet.from xs).
Proof.
  unfold JsSet.from. generalize (NoDup_nil_2 (A := string)).
  generalize (@nil string). induction xs as [|x xs IH]; intros acc Hacc; simpl; [done|].
  apply IH. by apply JsSet_add_NoDup.
Qed.

Lemma discovered_NoDup options text : NoDup (discovered options text).
Proof. unfold discovered. destruct (Symbol_match _ _); apply JsSet_from_NoDup. Qed.

(** Adding the chosen elements of a duplicate-free list to a set that has
    none of them appends them in order. *)
Lemma foldl_add_fresh (p : string → bool) xs :
  NoDup xs → ∀ acc, (∀ x, x ∈ xs → x ∉ acc) →
  foldl (λ r v, if p v then JsSet.add v r else r) acc xs
  = acc ++ filter (λ v, p v = true) xs.
Proof.
  induction 1 as [|x xs Hx Hnd IH]; intros acc Hacc; simpl.
  - by rewrite app_nil_r.
  - rewrite filter_cons. destruct (p x) eqn:Hp.
    + rewrite decide_True by done. unfold JsSet.add at 2.
      rewrite bool_decide_eq_false_2 by (apply Hacc; left).
      rewrite IH.
      * by rewrite <- app_assoc.
      * intros y Hy [Hin| ->%list_elem_of_singleton]%elem_of_app; [|done].
        by apply (Hacc y); [right|].
    + rewrite decide_False by done. apply IH.
      intros y Hy. apply Hacc. by right.
Qed.

(** Adding elements that the set already has changes nothing. *)
Lemma foldl_add_present (p : string → bool) xs acc :
  (∀ x, x ∈ xs → p x = true → x ∈ acc) →
  foldl (λ r v, if p v then JsSet.add v r else r) acc xs = acc.
Proof.
  induction xs as [|x xs IH]; intros Hacc; simpl; [done|].
  destruct (p x) eqn:Hp.
  - unfold JsSet.add at 2. rewrite bool_decide_eq_true_2 by (apply Hacc; [left|done]).
    apply IH. intros y Hy. apply Hacc. by right.
  - apply IH. intros y Hy. apply Hacc. by right.
Qed.

Lemma filter_defined merged found :
  filter (λ v, is_defined merged v = true) found
  = filter (λ v, is_Some (merged !! v)) found.
Proof. apply list_filter_iff. intros v. unfold is_defined. by rewrite bool_decide_eq_true. Qed.

Lemma filter_undefined merged found :
  filter (λ v, negb (is_defined merged v) = true) found
  = filter (λ v, merged !! v = None) found.
Proof.
  apply list_filter_iff. intros v. unfold is_defined.
  rewrite negb_true_iff, bool_decide_eq_false, eq_None_not_Some. done.
Qed.

Lemma missing_fold merged found acc :
  foldl (missing_step merged) acc found
  = acc ++ filter (λ v, merged !! v = None) found.
Proof.
  rewrite <- filter_undefined. revert acc.
  induction found as [|x xs IH]; intros acc; simpl; [by rewrite app_nil_r|].
  rewrite IH, filter_cons. unfold missing_step, is_defined.
  destruct (negb _); [|by rewrite decide_False by done].
  rewrite decide_True by done. by rewrite <- app_assoc.
Qed.

(** The validation finds a missing token exactly when there is one. *)
Lemma missing_positive merged found :
  0 < length (foldl (missing_step merged) [] found)
  ↔ ∃ token, token ∈ found ∧ merged !! token = None.
Proof.
  rewrite missing_fold. simpl. split.
  - destruct (filter _ found) as [|x l] eqn:Hf; [simpl; lia|]. intros _.
    exists x. apply and_comm, (list_elem_of_filter (λ v, merged !! v = None)).
    rewrite Hf. left.
  - intros (x & Hx & Hm).
    assert (x ∈ filter (λ v, merged !! v = None) found) as Hin
      by by apply list_elem_of_filter.
    destruct (filter _ found); [by apply elem_of_nil in Hin|simpl; lia].
Qed.

Lemma unresolved_fold merged found :
  NoDup found →
  foldl (unresolved_step merged) [] found = filter (λ v, merged !! v = None) found.
Proof.
  intros Hnd. rewrite <- filter_undefined.
  change (filter _ found) with ([] ++ filter (λ v, negb (is_defined merged v) = true) found).
  rewrite <- (foldl_add_fresh (λ v, negb (is_defined merged v)) found Hnd []); [done|].
  intros x _. apply not_elem_of_nil.
Qed.

Lemma substitution_fold_text merged found init :
  TemplateEngine.updatedPrompt (foldl (substitution_step merged) init found)
  = substitute merged found (TemplateEngine.updatedPrompt init).
Proof.
  unfold substitute. revert init.
  induction found as [|x xs IH]; intros init; simpl; [done|].
  rewrite IH. unfold substitution_step. by destruct (merged !! x).
Qed.

Lemma substitution_fold_replaced merged found init :
  TemplateEngine.replaced (foldl (substitution_step merged) init found)
  = foldl (λ r v, if is_defined merged v then JsSet.add v r else r)
          (TemplateEngine.replaced init) found.
Proof.
  revert init. induction found as [|x xs IH]; intros init; simpl; [done|].
  rewrite IH. unfold substitution_step, is_defined.
  by destruct (merged !! x) eqn:Hx.
Qed.

Lemma substitution_fold_unresolved merged found init :
  TemplateEngine.unresolved (foldl (substitution_step merged) init found)
  = foldl (λ r v, if negb (is_defined merged v) then JsSet.add v r else r)
          (TemplateEngine.unresolved init) found.
Proof.
  revert init. induction found as [|x xs IH]; intros init; simpl; [done|].
  rewrite IH. unfold substitution_step, is_defined.
  by destruct (merged !! x) eqn:Hx.
Qed.

(** A result of the [try] block for a non-empty, duplicate-free set of
    tokens: the text is the substituted one, the replaced set holds the
    defined tokens and the unresolved set the others, in the order of
    discovery. *)
Lemma try_block_result text found merged options result :
  NoDup found → found ≠ [] →
  try_block text found merged options = Return result →
  processedTemplate result = substitute merged found text ∧
  variablesFound result = found ∧
  variablesReplaced result = filter (λ v, is_Some (merged !! v)) found ∧
  undefinedVariables result = filter (λ v, merged !! v = None) found.
Proof.
  intros Hnd Hne. unfold try_block.
  rewrite bool_decide_eq_false_2 by by destruct found.
  destruct (if validating options then _ else _) as [u|e] eqn:Hu; [|done].
  intros [= <-]. simpl.
  rewrite substitution_fold_text, substitution_fold_replaced,
    substitution_fold_unresolved. simpl.
  split; [done|]. split; [done|]. split.
  - rewrite foldl_add_fresh; [apply filter_defined|done|].
    intros x _. apply not_elem_of_nil.
  - assert (u = [] ∨ u = filter (λ v, merged !! v = None) found) as [->| ->].
    { destruct (validating options); [|left; congruence].
      case_bool_decide; [|left; congruence].
      destruct (strict options); [done|]. right.
      injection Hu as <-. by apply unresolved_fold. }
    + rewrite foldl_add_fresh; [apply filter_undefined|done|].
      intros x _. apply not_elem_of_nil.
    + apply foldl_add_present. intros x Hx Hp.
      apply list_elem_of_filter. split; [|done].
      unfold is_defined in Hp.
      by rewrite negb_true_iff, bool_decide_eq_false, <- eq_None_not_Some in Hp.
Qed.

End ResultSets.

(** ** Requests *)

Section Requests.
Import TemplateEngineObj.
Implicit Types (w : World) (o : TemplateEngineObj.t).

Lemma merge_lookup base overrides token :
  merge base overrides !! token = lookup_layers base overrides token.
Proof.
  unfold merge, lookup_layers. destruct overrides as [ov|]; simpl; [|done].
  rewrite lookup_union. by destruct (ov !! token), (base !! token).
Qed.

Lemma processTemplate_not_initialized w this o fileName arg options :
  engines w !! this = Some o →
  initialized o = false →
  TemplateEngine.processTemplate this fileName arg options w
  = (Throw (TemplateEngineError INITIALIZATION_ERROR), w).
Proof.
  intros Ho Hinit. unfold TemplateEngine.processTemplate.
  destruct arg;
    (erewrite bind_return by by apply TemplateEngine_read_live); by rewrite Hinit.
Qed.

(** The third argument is read only behind a [Map]: when the second
    argument is [undefined] the call runs with the options [{}], and when
    it is an options object the call runs with that object. *)
Lemma processTemplate_third_argument this fileName options :
  TemplateEngine.processTemplate this fileName IsUndefined options
  = TemplateEngine.processTemplate this fileName IsUndefined None ∧
  ∀ second,
    TemplateEngine.processTemplate this fileName (IsOptions second) options
    = TemplateEngine.processTemplate this fileName (IsOptions second) None.
Proof. done. Qed.

(** No call of [processTemplate] writes an object that existed before: the
    maps it allocates come after those of the world, and the stores, the
    engines and the singleton are as before. *)
Lemma processTemplate_frame w this o base fileName arg options :
  engines w !! this = Some o →
  maps w !! variableMap (variableDefinitions o) = Some base →
  overrides_live w arg →
  let w' := (TemplateEngine.processTemplate this fileName arg options w).2 in
  engines w' = engines w ∧ caches w' = caches w ∧
  PromptCache_instance w' = PromptCache_instance w ∧ fs w' = fs w ∧
  ∃ allocated, maps w' = maps w ++ allocated.
Proof.
  intros Ho Hbase Hov. destruct (initialized o) eqn:Hinit.
  - rewrite (processTemplate_run w this o base) by done.
    destruct (PromptCache.getPrompt _ _ _).1 as [text|[type|]]; simpl;
      repeat split; eauto; by exists []; rewrite app_nil_r.
  - rewrite (processTemplate_not_initialized w this o) by done. simpl.
    repeat split. exists []. by rewrite app_nil_r.
Qed.

Context (w : World) (this : loc) (o : TemplateEngineObj.t).
Context (store : PromptCacheObj.t) (base : gmap string string).
Context (fileName text : string).
Context (arg : OverridesOrOptions) (options : option ProcessingOptions).

Hypothesis engine_live : engines w !! this = Some o.
Hypothesis baseline_live : maps w !! variableMap (variableDefinitions o) = Some base.
Hypothesis arg_live : overrides_live w arg.

Let popts := processingOptions_of arg options.
Let merged := merge base (overrides_of w arg).

(** C2: when [processTemplate] returns a result for a non-empty set of
    discovered tokens, every discovered token is in exactly one of
    [variablesReplaced] and [undefinedVariables], and these two sets hold
    nothing else. *)
Theorem replaced_and_undefined_partition_found result :
  (TemplateEngine.processTemplate this fileName arg options w).1 = Return result →
  variablesFound result ≠ [] →
  (∀ token, token ∈ variablesFound result ↔
            token ∈ variablesReplaced result ∨ token ∈ undefinedVariables result) ∧
  (∀ token, ¬ (token ∈ variablesReplaced result ∧ token ∈ undefinedVariables result)).
Proof.
  destruct (initialized o) eqn:Hinit; last first.
  { by rewrite (processTemplate_not_initialized w this o). }
  rewrite (processTemplate_run w this o base) by done.
  destruct (PromptCache.getPrompt _ _ _).1 as [content|[type|]]; [|done..].
  cbn [fst]. intros Hres Hne.
  destruct (decide (discovered (processingOptions_of arg options) content = []))
    as [Hnil|Hfound].
  { revert Hres. unfold try_block. rewrite Hnil. simpl.
    destruct (strict _); [done|]. intros [= <-]. done. }
  apply try_block_result in Hres as (_ & Hf & Hr & Hu);
    [|apply discovered_NoDup|done].
  rewrite Hr, Hu, Hf. split.
  - intros token. rewrite !list_elem_of_filter.
    destruct (merge base (overrides_of w arg) !! token) eqn:Hm.
    + split; [by left|]. intros [[_ ?]|[_ ?]]; done.
    + split; [by right|]. intros [[_ ?]|[_ ?]]; done.
  - intros token. rewrite !list_elem_of_filter. intros [[[v Hv] _] [Hn _]]. congruence.
Qed.

Hypothesis engine_initialized : initialized o = true.
Hypothesis store_live : caches w !! promptCache o = Some store.
Hypothesis store_ready : PromptCacheObj.initialized store = true.
Hypothesis cached : PromptCacheObj.cache store !! fileName = Some text.

Lemma processTemplate_fetched :
  TemplateEngine.processTemplate this fileName arg options w
  = (try_block text (discovered popts text) merged popts,
     set_maps (maps w ++ [base; ∅; merged]) w).
Proof.
  rewrite (processTemplate_run w this o base) by done.
  rewrite (getPrompt_run w _ store) by done.
  by rewrite store_ready, cached.
Qed.

(** A text without a token under the pattern of the options that the call
    runs with, [popts]: the third argument behind a [Map], the second
    argument when it is an options object, and [{}] when the second
    argument is [undefined].  [processTemplate] fails with
    [VALIDATION_ERROR] unless [strictMode] of [popts] is [false]; with
    [strictMode] [false] it returns the text as it is, with the three sets
    empty. *)
Lemma no_tokens_policy :
  discovered popts text = [] →
  (strictMode popts ≠ Some false →
     (TemplateEngine.processTemplate this fileName arg options w).1
     = Throw (TemplateEngineError VALIDATION_ERROR)) ∧
  (strictMode popts = Some false →
     (TemplateEngine.processTemplate this fileName arg options w).1
     = Return {| processedTemplate := text;
                 variablesFound := [];
                 variablesReplaced := [];
                 undefinedVariables := [] |}).
Proof.
  intros Hnil. rewrite processTemplate_fetched. cbn [fst].
  unfold try_block, strict. rewrite Hnil. simpl. split; intros Hs.
  - by rewrite bool_decide_eq_true_2.
  - rewrite bool_decide_eq_false_2; [done|]. by intros [].
Qed.

(** A non-empty set of discovered tokens, the validation on and a
    discovered token that the merged mapping does not define, all under the
    options [popts] that the call runs with: unless [strictMode] of [popts]
    is [false] the call fails with [VARIABLE_NOT_DEFINED]; with
    [strictMode] [false] it returns a result whose [undefinedVariables] is
    the set of the missing tokens, whose [variablesReplaced] is the set of
    the defined ones, and whose text is the outcome of the substitution of
    the defined tokens. *)
Lemma undefined_variables_policy :
  discovered popts text ≠ [] →
  validateVariables popts ≠ Some false →
  (∃ token, token ∈ discovered popts text ∧ merged !! token = None) →
  (strictMode popts ≠ Some false →
     (TemplateEngine.processTemplate this fileName arg options w).1
     = Throw (TemplateEngineError VARIABLE_NOT_DEFINED)) ∧
  (strictMode popts = Some false →
     ∃ result,
       (TemplateEngine.processTemplate this fileName arg options w).1 = Return result ∧
       variablesFound result = discovered popts text ∧
       undefinedVariables result
       = filter (λ token, merged !! token = None) (discovered popts text) ∧
       variablesReplaced result
       = filter (λ token, is_Some (merged !! token)) (discovered popts text) ∧
       processedTemplate result = substitute merged (discovered popts text) text).
Proof.
  intros Hne Hval Hmissing. rewrite processTemplate_fetched. cbn [fst].
  apply missing_positive in Hmissing.
  assert (validating popts = true) as Hvalidating by by apply bool_decide_eq_true_2.
  assert (length (discovered popts text) ≠ 0) as Hlen by by destruct (discovered _ _).
  split; intros Hs.
  - unfold try_block.
    rewrite (bool_decide_eq_false_2 _ Hlen), Hvalidating.
    rewrite (bool_decide_eq_true_2 _ Hmissing).
    unfold strict. by rewrite bool_decide_eq_true_2.
  - assert (strict popts = false) as Hstrict.
    { unfold strict. apply bool_decide_eq_false_2. by intros []. }
    destruct (try_block text (discovered popts text) merged popts)
      as [result|e] eqn:Hres.
    + exists result. split; [done|].
      apply try_block_result in Hres as (Ht & Hf & Hr & Hu);
        [|apply discovered_NoDup|done].
      by rewrite Hr, Hu.
    + exfalso. revert Hres. unfold try_block.
      rewrite (bool_decide_eq_false_2 _ Hlen), Hvalidating, Hstrict.
      by case_bool_decide.
Qed.

End Requests.

(** ** Baseline, overrides and the engine's state *)

Section EngineState.
Import TemplateEngineObj.
Implicit Types (w : World) (o : TemplateEngineObj.t).

(** C5: in a call with an override map, the value substituted for a token
    is the override's where the override has the token and the baseline's
    otherwise; and after the call, whatever its outcome, the engine and
    the map of its baseline are as before. *)
Theorem overrides_take_precedence w this o base map ov fileName options :
  engines w !! this = Some o →
  maps w !! variableMap (variableDefinitions o) = Some base →
  maps w !! map = Some ov →
  let r := TemplateEngine.processTemplate this fileName (IsMap map) options w in
  engines r.2 !! this = Some o ∧
  maps r.2 !! variableMap (variableDefinitions o) = Some base ∧
  ∀ result, r.1 = Return result →
    ∃ text,
      (PromptCache.getPrompt (promptCache o) fileName w).1 = Return text ∧
      processedTemplate result =
        foldl (λ acc token,
                 match ov !! token with
                 | Some value => JsString.replaceAll acc token value
                 | None =>
                     match base !! token with
                     | Some value => JsString.replaceAll acc token value
                     | None => acc
                     end
                 end) text (variablesFound result) ∧
      ∀ token, token ∈ variablesFound result → is_Some (ov !! token) →
               token ∈ variablesReplaced result.
Proof.
  intros Ho Hbase Hov r.
  assert (overrides_live w (IsMap map)) as Hlive by (simpl; by rewrite Hov).
  destruct (processTemplate_frame w this o base fileName (IsMap map) options)
    as (He & _ & _ & _ & allocated & Hm); [done..|].
  fold r in He, Hm. split; [by rewrite He|]. split.
  { rewrite Hm. by apply lookup_app_l_Some. }
  intros result. subst r. destruct (initialized o) eqn:Hinit; last first.
  { by rewrite (processTemplate_not_initialized w this o). }
  rewrite (processTemplate_run w this o base) by done.
  destruct (PromptCache.getPrompt _ _ _).1 as [text|[type|]]; [|done..].
  cbn [fst overrides_of]. rewrite Hov. cbn [merge]. intros Hres. exists text.
  split; [done|].
  set (found := discovered (processingOptions_of (IsMap map) options) text) in *.
  assert (processedTemplate result = substitute (ov ∪ base) found text ∧
          variablesFound result = found ∧
          variablesReplaced result = filter (λ v, is_Some ((ov ∪ base) !! v)) found)
    as (Ht & Hf & Hr).
  { destruct (decide (found = [])) as [Hnil|Hne].
    - revert Hres. unfold try_block. rewrite Hnil. simpl.
      destruct (strict _); [done|]. by intros [= <-].
    - apply try_block_result in Hres as (? & ? & ? & ?);
        [done|apply discovered_NoDup|done]. }
  rewrite Ht, Hf, Hr. split.
  - unfold substitute. generalize text. generalize found. clear.
    intros found. induction found as [|token tokens IH]; intros text; simpl; [done|].
    rewrite <- IH. f_equal.
    rewrite lookup_union. by destruct (ov !! token), (base !! token).
  - intros token Hin [value Hv]. apply list_elem_of_filter. split; [|done].
    exists value. by apply lookup_union_Some_l.
Qed.

(** C10: when [processTemplate] fails, it fails with one of the engine's
    typed errors, and the engine is as before: its [initialized] flag and
    its other fields, and the entries of its baseline map. *)
Theorem failure_leaves_engine_unchanged w this o base fileName arg options e :
  engines w !! this = Some o →
  maps w !! variableMap (variableDefinitions o) = Some base →
  overrides_live w arg →
  (TemplateEngine.processTemplate this fileName arg options w).1 = Throw e →
  let w' := (TemplateEngine.processTemplate this fileName arg options w).2 in
  engines w' !! this = Some o ∧
  maps w' !! variableMap (variableDefinitions o) = Some base ∧
  ∃ type, e = TemplateEngineError type.
Proof.
  intros Ho Hbase Hov He w'.
  destruct (processTemplate_frame w this o base fileName arg options)
    as (Hengines & _ & _ & _ & allocated & Hm); [done..|].
  fold w' in Hengines, Hm. split; [by rewrite Hengines|]. split.
  { rewrite Hm. by apply lookup_app_l_Some. }
  revert He. destruct (initialized o) eqn:Hinit; last first.
  { rewrite (processTemplate_not_initialized w this o) by done. intros [= <-]. eauto. }
  rewrite (processTemplate_run w this o base) by done.
  destruct (PromptCache.getPrompt _ _ _).1 as [text|[type|]]; cbn [fst].
  - unfold try_block.
    repeat first [ case_bool_decide | case_match ]; intros [= <-]; eauto;
      simplify_eq; eauto.
  - intros [= <-]. eauto.
  - intros [= <-]. eauto.
Qed.

(** C9: [getRequiredVariables] does not look at the engine's
    [initialized] flag.  On an engine that was not initialized, over a
    store that is ready and holds the identifier, it returns the set of
    discovered tokens, where [processTemplate] fails with
    [INITIALIZATION_ERROR]. *)
Theorem getRequiredVariables_without_initialize
        w this o store fileName text options arg options' :
  engines w !! this = Some o →
  initialized o = false →
  caches w !! promptCache o = Some store →
  PromptCacheObj.initialized store = true →
  PromptCacheObj.cache store !! fileName = Some text →
  TemplateEngine.getRequiredVariables this fileName options w
  = (Return (discovered (default no_options options) text), w) ∧
  TemplateEngine.processTemplate this fileName arg options' w
  = (Throw (TemplateEngineError INITIALIZATION_ERROR), w).
Proof.
  intros Ho Hinit Hstore Hready Hcached. split.
  - unfold TemplateEngine.getRequiredVariables.
    erewrite bind_return; last first.
    { rewrite (readPromptFile_run w this o) by done.
      rewrite (getPrompt_run w _ store) by done.
      by rewrite Hready, Hcached. }
    apply findUniqueVariablesRequired_run.
  - by apply (processTemplate_not_initialized w this o).
Qed.

(** C8: once the singleton exists, [getInstance] returns it whatever the
    location and the suffixes it is called with, and changes nothing; and
    constructing an engine, from any configuration, gives an engine on
    that same store and leaves every store object, its configuration and
    its content, as it was. *)
Theorem getInstance_keeps_singleton w store :
  PromptCache_instance w = Some store →
  (∀ dir exts, PromptCache.getInstance dir exts w = (Return store, w)) ∧
  (∀ cfg,
     let r := TemplateEngine.new cfg w in
     caches r.2 = caches w ∧
     PromptCache_instance r.2 = Some store ∧
     ∀ engine, r.1 = Return engine →
       ∃ o, engines r.2 !! engine = Some o ∧ promptCache o = store).
Proof.
  intros Hinst. split; [intros; by apply getInstance_existing|].
  intros cfg r.
  assert (r = match (maps w ++ [∅]) !! TemplateEngineConfig.variableDefinitions cfg with
              | Some m =>
                  (Return (length (engines w)),
                   set_engines
                     (engines w ++
                        [mk store {| variableMap := S (length (maps w)) |} cfg false])
                     (set_maps (maps w ++ [∅; m]) w))
              | None => (Throw OtherError, set_maps (maps w ++ [∅]) w)
              end) as ->.
  { subst r. unfold TemplateEngine.new.
    unfold bind at 1. rewrite VariableDefinitions_new_run.
    destruct (_ !! TemplateEngineConfig.variableDefinitions cfg) as [m|]; [|done].
    by erewrite bind_return by by apply getInstance_existing. }
  destruct (_ !! TemplateEngineConfig.variableDefinitions cfg) as [m|]; [|done].
  cbn. split; [done|]. split; [done|].
  intros engine [= <-]. eexists. split.
  - rewrite lookup_app_r by done. by rewrite Nat.sub_diag.
  - done.
Qed.

End EngineState.

(** ** Replacing every occurrence *)

Section ReplaceAll.
Import JsString.
Context (search value : string).
Hypothesis search_not_empty : search ≠ "".
Hypothesis value_literal : has_dollar value = false.

Lemma startsWith_prefix (s rest : string) : startsWith (s +:+ rest) s = true.
Proof.
  induction s as [|c s IH]; simpl; [done|].
  by rewrite bool_decide_eq_true_2.
Qed.

Lemma startsWith_empty : startsWith "" search = false.
Proof using search_not_empty. by destruct search. Qed.

(** A value without a dollar sign is inserted as it is. *)
Lemma GetSubstitution_literal matched before after template :
  has_dollar template = false →
  GetSubstitution matched before after template = template.
Proof.
  induction template as [|c template IH]; simpl; [done|].
  intros [Hc Hrest]%orb_false_iff. rewrite Hc. by rewrite IH.
Qed.

(** For such a value the text before the match plays no part. *)
Lemma replaceAll_loop_before rest :
  ∀ skip before before',
    replaceAll_loop search value before rest skip
    = replaceAll_loop search value before' rest skip.
Proof using value_literal.
  induction rest as [|c rest IH]; intros skip before before'.
  - destruct skip; simpl; [|done].
    by rewrite !GetSubstitution_literal.
  - destruct skip; simpl.
    + rewrite !GetSubstitution_literal by done.
      destruct (startsWith _ _); [destruct (String.length search)|];
        by erewrite IH.
    + apply IH.
Qed.

(** The characters of a match are passed over. *)
Lemma replaceAll_loop_skip s rest :
  ∀ before before',
    replaceAll_loop search value before (s +:+ rest) (String.length s)
    = replaceAll_loop search value before' rest 0.
Proof using value_literal.
  induction s as [|c s IH]; intros before before'; simpl.
  - apply replaceAll_loop_before.
  - apply IH.
Qed.

(** At an occurrence, the value is inserted and the scan goes on behind it. *)
Lemma replaceAll_loop_match rest before :
  replaceAll_loop search value before (search +:+ rest) 0
  = value +:+ replaceAll_loop search value before rest 0.
Proof using search_not_empty value_literal.
  destruct search as [|c s] eqn:Hs; [done|]. rewrite <- Hs.
  assert (search +:+ rest = String c (s +:+ rest)) as Htext by by rewrite Hs.
  rewrite Htext at 1. simpl. rewrite <- Htext, startsWith_prefix.
  rewrite GetSubstitution_literal by done.
  rewrite Hs at 1. simpl. f_equal. apply replaceAll_loop_skip.
Qed.

(** Where no occurrence starts, the text is kept. *)
Lemma replaceAll_loop_piece piece rest :
  ∀ before,
    no_occurrence_before search (piece +:+ rest) (String.length piece) = true →
    replaceAll_loop search value before (piece +:+ rest) 0
    = piece +:+ replaceAll_loop search value before rest 0.
Proof using value_literal.
  induction piece as [|c piece IH]; intros before; simpl; [done|].
  intros [Hhere Hlater]%andb_true_iff.
  apply negb_true_iff in Hhere. simpl in Hhere. rewrite Hhere.
  rewrite (IH _ Hlater).
  change (String c piece +:+ ?x) with (String c (piece +:+ x)).
  do 2 f_equal. apply replaceAll_loop_before.
Qed.

Lemma replaceAll_loop_last last :
  ∀ before,
    no_occurrence_before search last (String.length last) = true →
    replaceAll_loop search value before last 0 = last.
Proof using search_not_empty.
  induction last as [|c last IH]; intros before; simpl.
  - by rewrite startsWith_empty.
  - intros [Hhere Hlater]%andb_true_iff.
    apply negb_true_iff in Hhere. simpl in Hhere. rewrite Hhere.
    f_equal. by apply IH.
Qed.

(** For a non-empty token and a value without a dollar sign, [replaceAll]
    puts the value in the place of every occurrence of the token that the
    scan from the left meets, and keeps the text between them. *)
Theorem replaceAll_every_occurrence pieces last :
  separated search pieces last = true →
  replaceAll (join search pieces last) search value = join value pieces last.
Proof using search_not_empty value_literal.
  unfold replaceAll. generalize EmptyString.
  induction pieces as [|piece pieces IH]; intros before; simpl.
  - by apply replaceAll_loop_last.
  - intros [Hpiece Hrest]%andb_true_iff.
    rewrite replaceAll_loop_piece by done.
    rewrite replaceAll_loop_match. by rewrite IH.
Qed.

End ReplaceAll.

(** X30: a text with a single token, whose value has no dollar sign: the result
    has the value in the place of every occurrence of the token. *)
Lemma literal_value_replaces_every_occurrence
      w this o store base fileName arg options token value pieces last :
  engines w !! this = Some o →
  maps w !! variableMap (TemplateEngineObj.variableDefinitions o) = Some base →
  overrides_live w arg →
  TemplateEngineObj.initialized o = true →
  caches w !! TemplateEngineObj.promptCache o = Some store →
  PromptCacheObj.initialized store = true →
  PromptCacheObj.cache store !! fileName = Some (join token pieces last) →
  discovered (processingOptions_of arg options) (join token pieces last) = [token] →
  merge base (overrides_of w arg) !! token = Some value →
  token ≠ "" →
  has_dollar value = false →
  separated token pieces last = true →
  (TemplateEngine.processTemplate this fileName arg options w).1
  = Return {| processedTemplate := join value pieces last;
              variablesFound := [token];
              variablesReplaced := [token];
              undefinedVariables := [] |}.
Proof.
  intros Ho Hbase Hov Hinit Hstore Hready Hcached Hfound Hvalue Htoken Hliteral Hsep.
  rewrite (processTemplate_fetched w this o store base fileName (join token pieces last))
    by done.
  cbn [fst]. unfold try_block. rewrite Hfound. simpl.
  unfold missing_step, substitution_step. rewrite Hvalue. simpl.
  rewrite replaceAll_every_occurrence by done.
  by destruct (validating _).
Qed.

(** ** The concrete run *)

Import Scenario.

(** C6, as stated, fails: on the store of a constructed engine that was
    not initialized, [getPrompt] fails with [INITIALIZATION_ERROR], which
    is not [FILE_NOT_FOUND]. *)
Lemma getPrompt_not_ready_counterexample :
  (PromptCache.isInitialized 0 constructed).1 = Return false ∧
  (PromptCache.getPrompt 0 "A.txt" constructed).1
  = Throw (TemplateEngineError INITIALIZATION_ERROR) ∧
  (PromptCache.getPrompt 0 "A.txt" constructed).1
  ≠ Throw (TemplateEngineError FILE_NOT_FOUND).
Proof. split; [|split]; [by vm_compute..|]. vm_compute. discriminate. Qed.

(** C4, where the code departs from it: the value ["$$E$$"] of the token
    [{{x}}] is read by [replaceAll] as a replacement pattern, and each
    occurrence of the token becomes ["$E$"], not the value. *)
Theorem replacement_patterns_in_value :
  (TemplateEngine.processTemplate 0 "B.md" (IsMap 2) None ready).1
  = Return {| processedTemplate := "$E$ and $E$";
              variablesFound := ["{{x}}"];
              variablesReplaced := ["{{x}}"];
              undefinedVariables := [] |} ∧
  maps ready !! 2 = Some {[ "{{x}}" := "$$E$$" ]}.
Proof. split; by vm_compute. Qed.

(** C1, where the code departs from it: the call
    [processTemplate("A.txt", undefined, {strictMode: false})] on the text
    ["Hello {{name}}, you are a {{role}}."], whose token [{{role}}] the
    baseline does not define.  The options are the third argument, and the
    code reads the third argument only behind a [Map]: the call runs with
    [{}], in strict mode, and fails with [VARIABLE_NOT_DEFINED].  The same
    options as second argument, or as third argument behind an empty
    [Map], give the result that records [{{role}}] as unresolved. *)
Theorem strictMode_dropped_with_missing_token :
  let recorded :=
    Return {| processedTemplate := "Hello Bob, you are a {{role}}.";
              variablesFound := ["{{name}}"; "{{role}}"];
              variablesReplaced := ["{{name}}"];
              undefinedVariables := ["{{role}}"] |} in
  strictMode non_strict = Some false ∧
  validateVariables non_strict = None ∧
  (TemplateEngine.processTemplate 0 "A.txt" IsUndefined (Some non_strict) ready).1
  = Throw (TemplateEngineError VARIABLE_NOT_DEFINED) ∧
  (TemplateEngine.processTemplate 0 "A.txt" (IsOptions non_strict) None ready).1
  = recorded ∧
  maps ready !! 3 = Some ∅ ∧
  (TemplateEngine.processTemplate 0 "A.txt" (IsMap 3) (Some non_strict) ready).1
  = recorded.
Proof. repeat split; by vm_compute. Qed.

(** C3, where the code departs from it: the call
    [processTemplate("E.txt", undefined, {strictMode: false})] on the text
    ["no tokens"].  The options are the third argument, and the code reads
    the third argument only behind a [Map]: the call runs with [{}], in
    strict mode, and fails with [VALIDATION_ERROR].  The same options as
    second argument, or as third argument behind an empty [Map], give the
    text as it is with the three sets empty. *)
Theorem strictMode_dropped_without_tokens :
  let unchanged :=
    Return {| processedTemplate := "no tokens";
              variablesFound := [];
              variablesReplaced := [];
              undefinedVariables := [] |} in
  strictMode non_strict = Some false ∧
  (TemplateEngine.processTemplate 0 "E.txt" IsUndefined (Some non_strict) ready).1
  = Throw (TemplateEngineError VALIDATION_ERROR) ∧
  (TemplateEngine.processTemplate 0 "E.txt" (IsOptions non_strict) None ready).1
  = unchanged ∧
  maps ready !! 3 = Some ∅ ∧
  (TemplateEngine.processTemplate 0 "E.txt" (IsMap 3) (Some non_strict) ready).1
  = unchanged.
Proof. repeat split; by vm_compute. Qed.

Local Ltac run := vm_compute; reflexivity.

Example ready_world :
  engines ready = [engine0] ∧ caches ready = [store0] ∧
  maps ready = [baseline; override; formula; ∅; baseline] ∧
  PromptCache_instance ready = Some 0.
Proof. repeat split; run. Qed.

Example second_world :
  engines second = [engine0; engine1] ∧ caches second = [store0] ∧
  maps second = [baseline; override; formula; ∅; baseline; ∅; baseline].
Proof. repeat split; run. Qed.

Lemma getPrompt_spec_witness :
  (PromptCache.getPrompt 0 "A.txt" ready).1
  = Return "Hello {{name}}, you are a {{role}}." ∧
  (PromptCache.getPrompt 0 "Q.txt" ready).1
  = Throw (TemplateEngineError FILE_NOT_FOUND) ∧
  (PromptCache.getPrompt 0 "A.txt" constructed).1
  = Throw (TemplateEngineError INITIALIZATION_ERROR).
Proof.
  split; [run|]. split.
  - apply (getPrompt_spec ready 0 store0 "Q.txt"); run.
  - apply (getPrompt_spec constructed 0
             (PromptCacheObj.mk ∅ false "prompts" [".txt"; ".md"; ".prompt"]) "A.txt");
      run.
Defined.

Lemma getPromptWithFallback_miss_witness :
  let r := PromptCache.getPromptWithFallback 0 "Q.txt" ready in
  (PromptCache.hasPrompt 0 "Q.txt" ready).1 = Return false ∧
  r.1 = Return "late {{x}}" ∧
  (PromptCache.getPrompt 0 "Q.txt" r.2).1 = Return "late {{x}}" ∧
  (PromptCache.hasPrompt 0 "Q.txt" r.2).1 = Return true.
Proof.
  split; [run|].
  apply (getPromptWithFallback_miss ready 0 store0 "Q.txt"); run.
Defined.

Lemma getInstance_keeps_singleton_witness :
  PromptCache.getInstance (Some "elsewhere") (Some [".log"]) ready
  = (Return 0, ready) ∧
  caches second = caches ready ∧
  caches second !! 0 = Some store0.
Proof.
  assert (PromptCache_instance ready = Some 0) as Hinstance by run.
  destruct (getInstance_keeps_singleton ready 0 Hinstance) as [Hget Hnew].
  split; [apply Hget|]. split; [apply (Hnew cfg')|run].
Defined.

Lemma getRequiredVariables_without_initialize_witness :
  (TemplateEngine.isInitialized 1 second).1 = Return false ∧
  TemplateEngine.getRequiredVariables 1 "A.txt" None second
  = (Return ["{{name}}"; "{{role}}"], second) ∧
  TemplateEngine.processTemplate 1 "A.txt" IsUndefined None second
  = (Throw (TemplateEngineError INITIALIZATION_ERROR), second).
Proof.
  split; [run|].
  apply (getRequiredVariables_without_initialize second 1 engine1 store0 "A.txt"
           "Hello {{name}}, you are a {{role}}." None IsUndefined None); run.
Defined.

Lemma no_tokens_policy_run :
  (TemplateEngine.processTemplate 0 "E.txt" IsUndefined None ready).1
  = Throw (TemplateEngineError VALIDATION_ERROR) ∧
  (TemplateEngine.processTemplate 0 "E.txt" (IsOptions non_strict) None ready).1
  = Return {| processedTemplate := "no tokens";
              variablesFound := [];
              variablesReplaced := [];
              undefinedVariables := [] |}.
Proof.
  split.
  - apply (no_tokens_policy ready 0 engine0 store0 baseline "E.txt" "no tokens"
             IsUndefined None); try run; done.
  - apply (no_tokens_policy ready 0 engine0 store0 baseline "E.txt" "no tokens"
             (IsOptions non_strict) None); try run; done.
Defined.

Lemma undefined_variables_policy_run :
  (TemplateEngine.processTemplate 0 "A.txt" IsUndefined None ready).1
  = Throw (TemplateEngineError VARIABLE_NOT_DEFINED) ∧
  ∃ result,
    (TemplateEngine.processTemplate 0 "A.txt" (IsOptions non_strict) None ready).1
    = Return result ∧
    undefinedVariables result = ["{{role}}"] ∧
    variablesReplaced result = ["{{name}}"] ∧
    processedTemplate result = "Hello Bob, you are a {{role}}.".
Proof.
  assert (∃ token, token ∈ ["{{name}}"; "{{role}}"] ∧ baseline !! token = None)
    as Hmissing.
  { exists "{{role}}". split; [|run]. apply list_elem_of_further, list_elem_of_here. }
  split.
  - apply (undefined_variables_policy ready 0 engine0 store0 baseline "A.txt"
             "Hello {{name}}, you are a {{role}}." IsUndefined None);
      try run; done.
  - destruct (undefined_variables_policy ready 0 engine0 store0 baseline "A.txt"
                "Hello {{name}}, you are a {{role}}." (IsOptions non_strict) None)
      as [_ Hloose]; try run; try done.
    destruct (Hloose eq_refl) as (result & Hres & _ & Hundefined & Hreplaced & Htext).
    exists result. split; [done|]. split; [|split].
    + rewrite Hundefined. run.
    + rewrite Hreplaced. run.
    + rewrite Htext. run.
Defined.

Lemma replaced_and_undefined_partition_found_witness :
  ∃ result,
    (TemplateEngine.processTemplate 0 "A.txt" (IsOptions non_strict) None ready).1
    = Return result ∧
    (∀ token, token ∈ variablesFound result ↔
              token ∈ variablesReplaced result ∨ token ∈ undefinedVariables result) ∧
    (∀ token, ¬ (token ∈ variablesReplaced result ∧ token ∈ undefinedVariables result)).
Proof.
  exists {| processedTemplate := "Hello Bob, you are a {{role}}.";
            variablesFound := ["{{name}}"; "{{role}}"];
            variablesReplaced := ["{{name}}"];
            undefinedVariables := ["{{role}}"] |}.
  split; [run|].
  apply (replaced_and_undefined_partition_found ready 0 engine0 baseline "A.txt"
           (IsOptions non_strict) None); try run; done.
Defined.

Lemma overrides_take_precedence_witness :
  let r := TemplateEngine.processTemplate 0 "B.md" (IsMap 1) None ready in
  baseline !! "{{x}}" = Some "a" ∧ override !! "{{x}}" = Some "b" ∧
  maps r.2 !! 4 = Some baseline ∧
  ∃ result, r.1 = Return result ∧ processedTemplate result = "b and b".
Proof.
  intros r. do 2 (split; [run|]).
  destruct (overrides_take_precedence ready 0 engine0 baseline 1 override "B.md" None)
    as (_ & Hbase & Hres); try run.
  split; [exact Hbase|].
  exists {| processedTemplate := "b and b";
            variablesFound := ["{{x}}"];
            variablesReplaced := ["{{x}}"];
            undefinedVariables := [] |}.
  split; run.
Defined.

Lemma failure_leaves_engine_unchanged_witness :
  let r := TemplateEngine.processTemplate 0 "A.txt" (IsMap 1) None ready in
  r.1 = Throw (TemplateEngineError VARIABLE_NOT_DEFINED) ∧
  engines r.2 !! 0 = Some engine0 ∧
  maps r.2 !! 4 = Some baseline.
Proof.
  intros r. split; [run|].
  destruct (failure_leaves_engine_unchanged ready 0 engine0 baseline "A.txt" (IsMap 1)
              None (TemplateEngineError VARIABLE_NOT_DEFINED))
    as (Hengine & Hbase & _); try run; [by exists override|].
  split; [exact Hengine|exact Hbase].
Defined.

(** ** The life of the store *)

Section StoreLifecycle.
Import PromptCacheObj.
Implicit Types (w : World) (o : PromptCacheObj.t).

Lemma append_cons c (s t : string) : String c s +:+ t = String c (s +:+ t).
Proof. done. Qed.

Lemma append_length (s t : string) :
  String.length (s +:+ t) = String.length s + String.length t.
Proof. induction s as [|c s IH]; [done|]. rewrite append_cons. simpl. by rewrite IH. Qed.

Lemma substring_all (s : string) : String.substring 0 (String.length s) s = s.
Proof. induction s as [|c s IH]; simpl; [done|]. by rewrite IH. Qed.

Lemma substring_suffix (prefix suffix : string) :
  String.substring (String.length prefix) (String.length suffix) (prefix +:+ suffix)
  = suffix.
Proof.
  induction prefix as [|c prefix IH]; [apply substring_all|].
  rewrite append_cons. simpl. apply IH.
Qed.

Lemma substring_split (s : string) :
  ∀ n, n ≤ String.length s →
  s = String.substring 0 n s +:+ String.substring n (String.length s - n) s.
Proof.
  induction s as [|c s IH]; intros n Hn.
  - simpl in Hn. by replace n with 0 by lia.
  - destruct n as [|n].
    + simpl. by rewrite substring_all.
    + simpl in *. rewrite append_cons. f_equal. apply IH. lia.
Qed.

(** [endsWith] holds exactly of the strings that end with the suffix. *)
Lemma endsWith_spec (s suffix : string) :
  JsString.endsWith s suffix = true ↔ ∃ prefix, s = prefix +:+ suffix.
Proof.
  unfold JsString.endsWith. rewrite andb_true_iff, !bool_decide_eq_true. split.
  - intros [Hlen Hsub]. exists (String.substring 0 (String.length s - String.length suffix) s).
    pose proof (substring_split s (String.length s - String.length suffix)) as Hsplit.
    replace (String.length s - (String.length s - String.length suffix))
      with (String.length suffix) in Hsplit by lia.
    rewrite Hsub in Hsplit. apply Hsplit. lia.
  - intros [prefix ->]. rewrite append_length. split; [lia|].
    replace (String.length prefix + String.length suffix - String.length suffix)
      with (String.length prefix) by lia.
    apply substring_suffix.
Qed.

Lemma scanPromptsDirectory_run w this o :
  caches w !! this = Some o →
  PromptCache.scanPromptsDirectory this w
  = (match readdir (fs w) (promptsDirectory o) with
     | Some files => Return (kept (promptFileExtensions o) files)
     | None => Throw (TemplateEngineError CACHE_ERROR)
     end, w).
Proof.
  intros H. unfold PromptCache.scanPromptsDirectory.
  erewrite bind_return by by apply PromptCache_read_live.
  by destruct (readdir _ _).
Qed.

Lemma loadPromptFile_run w this o file :
  caches w !! this = Some o →
  PromptCache.loadPromptFile this file w
  = match readFile (fs w) (path_join (fs w) (promptsDirectory o) file) with
    | Some content =>
        (Return tt,
         set_caches (<[this := mk (<[file := content]> (cache o)) (initialized o)
                                  (promptsDirectory o) (promptFileExtensions o)]>
                       (caches w)) w)
    | None => (Throw OtherError, w)
    end.
Proof.
  intros H. unfold PromptCache.loadPromptFile.
  erewrite bind_return by by apply PromptCache_read_live.
  destruct (readFile _ _); [|done]. by rewrite (PromptCache_update_live w this o).
Qed.

Lemma store_unchanged w this o :
  caches w !! this = Some o →
  set_caches (<[this := mk (cache o) (initialized o) (promptsDirectory o)
                           (promptFileExtensions o)]> (caches w)) w = w.
Proof.
  intros H. destruct w, o. unfold set_caches. simpl in *. by rewrite list_insert_id.
Qed.

(** The loads of [loadPromptFiles], one after the other: the entries of the
    readable files are written, and the first failure is remembered. *)
Lemma load_loop_run this files :
  ∀ w o failed,
    caches w !! this = Some o →
    for_of files failed (λ failed fileName,
      try_catch (let* _ := PromptCache.loadPromptFile this fileName in ret failed)
                (λ error, ret (Some (default error failed)))) w
    = (Return (match failed with
               | Some e => Some e
               | None =>
                   if forallb (readable (fs w) (promptsDirectory o)) files
                   then None else Some OtherError
               end),
       set_caches (<[this := mk (loaded (fs w) (promptsDirectory o) files (cache o))
                                (initialized o) (promptsDirectory o)
                                (promptFileExtensions o)]> (caches w)) w).
Proof.
  induction files as [|file files IH]; intros w o failed Ho.
  - simpl. unfold ret. rewrite store_unchanged by done. by destruct failed.
  - cbn [for_of]. unfold bind at 1, try_catch at 1, bind at 1.
    rewrite (loadPromptFile_run w this o) by done.
    unfold loaded, readable. cbn [foldl forallb].
    destruct (readFile _ _) as [content|] eqn:Hread.
    + unfold ret at 1.
      set (o' := mk (<[file:=content]> (cache o)) _ _ _).
      rewrite (IH _ o'); last first.
      { simpl. apply list_lookup_insert_eq. by eapply lookup_lt_Some. }
      rewrite bool_decide_eq_true_2 by done. cbn [andb].
      f_equal. unfold set_caches. simpl. by rewrite list_insert_insert_eq.
    + unfold ret at 1. rewrite (IH _ o) by done.
      rewrite bool_decide_eq_false_2 by by intros [? ?].
      cbn [andb]. by destruct failed.
Qed.

Lemma loadPromptFiles_run w this o files :
  caches w !! this = Some o →
  PromptCache.loadPromptFiles this files w
  = (if forallb (readable (fs w) (promptsDirectory o)) files
     then Return tt else Throw OtherError,
     set_caches (<[this := mk (loaded (fs w) (promptsDirectory o) files (cache o))
                              (initialized o) (promptsDirectory o)
                              (promptFileExtensions o)]> (caches w)) w).
Proof.
  intros H. unfold PromptCache.loadPromptFiles.
  erewrite bind_return by by apply load_loop_run.
  by destruct (forallb _ _).
Qed.

(** [initialize] on a live store: a failed listing leaves the world as it
    was; otherwise the readable kept files are cached, and the store is
    marked ready when all of them were readable. *)
Lemma PromptCache_initialize_run w this o :
  caches w !! this = Some o →
  PromptCache.initialize this w
  = match readdir (fs w) (promptsDirectory o) with
    | None => (Throw (TemplateEngineError CACHE_ERROR), w)
    | Some files =>
        let promptFiles := kept (promptFileExtensions o) files in
        let cache' := loaded (fs w) (promptsDirectory o) promptFiles (cache o) in
        if forallb (readable (fs w) (promptsDirectory o)) promptFiles then
          (Return tt,
           set_caches (<[this := mk cache' true (promptsDirectory o)
                                    (promptFileExtensions o)]> (caches w)) w)
        else
          (Throw (TemplateEngineError CACHE_ERROR),
           set_caches (<[this := mk cache' (initialized o) (promptsDirectory o)
                                    (promptFileExtensions o)]> (caches w)) w)
    end.
Proof.
  intros H. unfold PromptCache.initialize, try_catch.
  unfold bind at 1. rewrite (scanPromptsDirectory_run w this o) by done.
  destruct (readdir _ _) as [files|]; [|done].
  unfold bind at 1. rewrite (loadPromptFiles_run w this o) by done.
  destruct (forallb _ _); [|done].
  set (o' := mk _ (initialized o) _ _).
  rewrite (PromptCache_update_live _ this o'); last first.
  { simpl. apply list_lookup_insert_eq. by eapply lookup_lt_Some. }
  simpl. f_equal. unfold set_caches. simpl. by rewrite list_insert_insert_eq.
Qed.

Lemma loaded_lookup disk dir files :
  ∀ cache file,
    loaded disk dir files cache !! file
    = if bool_decide (file ∈ files) then
        match readFile disk (path_join disk dir file) with
        | Some content => Some content
        | None => cache !! file
        end
      else cache !! file.
Proof.
  unfold loaded. induction files as [|f files IH]; intros cache file.
  - done.
  - cbn [foldl]. rewrite IH. destruct (decide (file = f)) as [->|Hne].
    + rewrite (bool_decide_eq_true_2 (f ∈ f :: files)) by left.
      destruct (readFile disk (path_join disk dir f)) as [content|] eqn:Hread.
      * rewrite lookup_insert_eq. by case_bool_decide.
      * by case_bool_decide.
    + assert (bool_decide (file ∈ f :: files) = bool_decide (file ∈ files)) as ->.
      { apply bool_decide_ext. rewrite elem_of_cons. tauto. }
      case_bool_decide as Hin; [|by destruct (readFile disk (path_join disk dir f));
                                   rewrite ?lookup_insert_ne].
      destruct (readFile disk (path_join disk dir file)); [done|].
      destruct (readFile disk (path_join disk dir f)); by rewrite ?lookup_insert_ne.
Qed.

Lemma kept_elem exts files file :
  file ∈ kept exts files ↔ file ∈ files ∧ accepted exts file.
Proof. unfold kept, accepted. rewrite list_elem_of_filter. tauto. Qed.

Lemma all_readable disk dir files :
  forallb (readable disk dir) files = true
  ↔ ∀ file, file ∈ files → is_Some (readFile disk (path_join disk dir file)).
Proof.
  rewrite forallb_forall. unfold readable. split.
  - intros H file Hin. eapply bool_decide_eq_true_1, H. by apply list_elem_of_In.
  - intros H file Hin. apply bool_decide_eq_true_2, H. by apply list_elem_of_In.
Qed.

End StoreLifecycle.

(** ** Configuring, loading and reloading the store *)

Section StoreProperties.
Import PromptCacheObj.
Implicit Types (w : World) (o : PromptCacheObj.t).

(** X1: [configure] is refused once the store is initialized: it fails with
    [INITIALIZATION_ERROR] and changes nothing.  Before that it sets the
    location, replaces the suffixes only when they are given, and leaves the
    cache and the flag alone. *)
Theorem configure_only_before_initialize w this o dir exts :
  caches w !! this = Some o →
  (initialized o = true →
     PromptCache.configure this dir exts w
     = (Throw (TemplateEngineError INITIALIZATION_ERROR), w)) ∧
  (initialized o = false →
     PromptCache.configure this dir exts w
     = (Return tt,
        set_caches (<[this := mk (cache o) false dir
                                 (default (promptFileExtensions o) exts)]>
                      (caches w)) w)).
Proof.
  intros H. unfold PromptCache.configure.
  erewrite bind_return by by apply PromptCache_read_live.
  split; intros Hinit; rewrite Hinit; [done|].
  rewrite (PromptCache_update_live w this o) by done. by rewrite Hinit.
Qed.

(** X2: [scanPromptsDirectory] returns, in the order of the listing, the
    names of the listing that end with one of the configured suffixes, and
    nothing else; it does not change the world. *)
Theorem scanPromptsDirectory_keeps_suffixes w this o files :
  caches w !! this = Some o →
  readdir (fs w) (promptsDirectory o) = Some files →
  ∃ promptFiles,
    PromptCache.scanPromptsDirectory this w = (Return promptFiles, w) ∧
    promptFiles `sublist_of` files ∧
    ∀ file, file ∈ promptFiles ↔
            file ∈ files ∧
            ∃ ext prefix, ext ∈ promptFileExtensions o ∧ file = prefix +:+ ext.
Proof.
  intros H Hdir. exists (kept (promptFileExtensions o) files).
  rewrite (scanPromptsDirectory_run w this o), Hdir by done.
  split; [done|]. split; [apply sublist_filter|].
  intros file. rewrite kept_elem. unfold accepted. rewrite existsb_exists.
  split; intros [Hin Hext]; (split; [done|]).
  - destruct Hext as (ext & Hext & [prefix ->]%endsWith_spec).
    exists ext, prefix. by rewrite list_elem_of_In.
  - destruct Hext as (ext & prefix & Hext & ->). exists ext.
    rewrite <- list_elem_of_In. split; [done|]. apply endsWith_spec. eauto.
Qed.

(** X3: when the source lists the location and can read every kept file,
    [initialize] returns and marks the store ready; each kept file is
    cached under its name with its content, and the entries the cache had
    under other names stay. *)
Theorem initialize_loads_kept_files w this o files :
  caches w !! this = Some o →
  readdir (fs w) (promptsDirectory o) = Some files →
  (∀ file, file ∈ files → accepted (promptFileExtensions o) file →
           is_Some (readFile (fs w) (path_join (fs w) (promptsDirectory o) file))) →
  ∃ o',
    PromptCache.initialize this w
    = (Return tt, set_caches (<[this := o']> (caches w)) w) ∧
    initialized o' = true ∧
    promptsDirectory o' = promptsDirectory o ∧
    promptFileExtensions o' = promptFileExtensions o ∧
    ∀ file,
      cache o' !! file
      = if bool_decide (file ∈ files ∧ accepted (promptFileExtensions o) file)
        then readFile (fs w) (path_join (fs w) (promptsDirectory o) file)
        else cache o !! file.
Proof.
  intros H Hdir Hread. eexists. split.
  - rewrite (PromptCache_initialize_run w this o), Hdir by done. cbv zeta.
    rewrite (proj2 (all_readable _ _ _)); [done|].
    intros file [Hin Hacc]%kept_elem. by apply Hread.
  - simpl. do 3 (split; [done|]). intros file. rewrite loaded_lookup.
    case_bool_decide as Hk; case_bool_decide as Hin;
      rewrite kept_elem in Hk; try done; try tauto.
    by destruct (Hread file) as [content ->]; [tauto..|].
Qed.

(** X4: [initialize] fails with [CACHE_ERROR] when the source cannot list
    the location or cannot read one of the kept files.  The store keeps its
    flag and its configuration, and no map and no engine is touched. *)
Theorem initialize_failure_keeps_flag w this o :
  caches w !! this = Some o →
  (readdir (fs w) (promptsDirectory o) = None ∨
   ∃ files file,
     readdir (fs w) (promptsDirectory o) = Some files ∧
     file ∈ files ∧ accepted (promptFileExtensions o) file ∧
     readFile (fs w) (path_join (fs w) (promptsDirectory o) file) = None) →
  let r := PromptCache.initialize this w in
  r.1 = Throw (TemplateEngineError CACHE_ERROR) ∧
  maps r.2 = maps w ∧ engines r.2 = engines w ∧
  ∃ o', caches r.2 !! this = Some o' ∧
        initialized o' = initialized o ∧
        promptsDirectory o' = promptsDirectory o ∧
        promptFileExtensions o' = promptFileExtensions o.
Proof.
  intros H Hfail r. subst r. rewrite (PromptCache_initialize_run w this o) by done.
  destruct Hfail as [->|(files & file & -> & Hin & Hacc & Hread)].
  { simpl. do 3 (split; [done|]). eauto. }
  cbv zeta. destruct (forallb _ _) eqn:Hall.
  - exfalso. apply all_readable with (file := file) in Hall.
    + rewrite Hread in Hall. by destruct Hall.
    + by apply kept_elem.
  - simpl. do 3 (split; [done|]). eexists. split.
    + apply list_lookup_insert_eq. by eapply lookup_lt_Some.
    + done.
Qed.

Lemma refresh_run w this o :
  caches w !! this = Some o →
  PromptCache.refresh this w
  = PromptCache.initialize this
      (set_caches (<[this := mk ∅ false (promptsDirectory o)
                               (promptFileExtensions o)]> (caches w)) w).
Proof.
  intros H. unfold PromptCache.refresh.
  unfold bind at 1. rewrite (PromptCache_update_live w this o) by done.
  set (o1 := mk ∅ (initialized o) (promptsDirectory o) (promptFileExtensions o)).
  unfold bind at 1. rewrite (PromptCache_update_live _ this o1); last first.
  { simpl. apply list_lookup_insert_eq. by eapply lookup_lt_Some. }
  f_equal. unfold set_caches. simpl. by rewrite list_insert_insert_eq.
Qed.

(** X5: under the same conditions [refresh] returns with the store ready
    and the cache holding the kept files of the listing and nothing else:
    an entry under any other name, such as one that a fallback read had
    added, is gone. *)
Theorem refresh_reloads_from_scratch w this o files :
  caches w !! this = Some o →
  readdir (fs w) (promptsDirectory o) = Some files →
  (∀ file, file ∈ files → accepted (promptFileExtensions o) file →
           is_Some (readFile (fs w) (path_join (fs w) (promptsDirectory o) file))) →
  ∃ o',
    PromptCache.refresh this w
    = (Return tt, set_caches (<[this := o']> (caches w)) w) ∧
    initialized o' = true ∧
    promptsDirectory o' = promptsDirectory o ∧
    promptFileExtensions o' = promptFileExtensions o ∧
    ∀ file,
      cache o' !! file
      = if bool_decide (file ∈ files ∧ accepted (promptFileExtensions o) file)
        then readFile (fs w) (path_join (fs w) (promptsDirectory o) file)
        else None.
Proof.
  intros H Hdir Hread. rewrite (refresh_run w this o) by done.
  set (o1 := mk ∅ false (promptsDirectory o) (promptFileExtensions o)).
  set (w1 := set_caches _ w).
  assert (caches w1 !! this = Some o1) as H1.
  { simpl. apply list_lookup_insert_eq. by eapply lookup_lt_Some. }
  eexists. split.
  - rewrite (PromptCache_initialize_run w1 this o1) by done. simpl.
    rewrite Hdir. cbv zeta.
    rewrite (proj2 (all_readable _ _ _)).
    + unfold set_caches. simpl. by rewrite list_insert_insert_eq.
    + intros file [Hin Hacc]%kept_elem. by apply Hread.
  - simpl. do 3 (split; [done|]). intros file. rewrite loaded_lookup.
    case_bool_decide as Hk; case_bool_decide as Hin;
      rewrite kept_elem in Hk; try done; try tauto.
    by destruct (Hread file) as [content ->]; [tauto..|].
Qed.

(** X6: when the source cannot list the location or cannot read one of the
    kept files, [refresh] fails with [CACHE_ERROR] and leaves the store not
    ready: [getPrompt] then fails with [INITIALIZATION_ERROR] for every
    identifier, also for those that were cached before. *)
Theorem refresh_failure_leaves_store_not_ready w this o :
  caches w !! this = Some o →
  (readdir (fs w) (promptsDirectory o) = None ∨
   ∃ files file,
     readdir (fs w) (promptsDirectory o) = Some files ∧
     file ∈ files ∧ accepted (promptFileExtensions o) file ∧
     readFile (fs w) (path_join (fs w) (promptsDirectory o) file) = None) →
  let r := PromptCache.refresh this w in
  r.1 = Throw (TemplateEngineError CACHE_ERROR) ∧
  (PromptCache.isInitialized this r.2).1 = Return false ∧
  ∀ fileName,
    (PromptCache.getPrompt this fileName r.2).1
    = Throw (TemplateEngineError INITIALIZATION_ERROR).
Proof.
  intros H Hfail r. subst r. rewrite (refresh_run w this o) by done.
  set (o1 := mk ∅ false (promptsDirectory o) (promptFileExtensions o)).
  set (w1 := set_caches _ w).
  assert (caches w1 !! this = Some o1) as H1.
  { simpl. apply list_lookup_insert_eq. by eapply lookup_lt_Some. }
  assert (∃ o', PromptCache.initialize this w1
                = (Throw (TemplateEngineError CACHE_ERROR),
                   set_caches (<[this := o']> (caches w1)) w1) ∧
                initialized o' = false) as (o' & -> & Hflag).
  { rewrite (PromptCache_initialize_run w1 this o1) by done.
    change (fs w1) with (fs w). cbn [promptsDirectory promptFileExtensions o1].
    destruct Hfail as [->|(files & file & -> & Hin & Hacc & Hread)].
    - exists o1. split; [|done]. f_equal. symmetry. apply (store_unchanged w1 this o1 H1).
    - cbv zeta. destruct (forallb _ _) eqn:Hall.
      + exfalso. apply all_readable with (file := file) in Hall.
        * rewrite Hread in Hall. by destruct Hall.
        * by apply kept_elem.
      + by eexists. }
  assert (caches (set_caches (<[this := o']> (caches w1)) w1) !! this = Some o') as Ho'.
  { simpl. apply list_lookup_insert_eq.
    rewrite length_insert. by eapply lookup_lt_Some. }
  cbn [fst snd]. split; [done|]. split.
  - unfold PromptCache.isInitialized.
    erewrite bind_return by by apply PromptCache_read_live. simpl. by rewrite Hflag.
  - intros fileName. rewrite (getPrompt_run _ this o') by done. by rewrite Hflag.
Qed.

(** X7: on a live store [hasPrompt] never fails and never changes the
    world, whether the store is ready or not; on a ready store it answers
    [true] exactly for the identifiers for which [getPrompt] succeeds. *)
Theorem hasPrompt_agrees_with_getPrompt w this o fileName :
  caches w !! this = Some o →
  (∃ answer, PromptCache.hasPrompt this fileName w = (Return answer, w)) ∧
  (initialized o = true →
     (PromptCache.hasPrompt this fileName w).1 = Return true
     ↔ ∃ content, (PromptCache.getPrompt this fileName w).1 = Return content).
Proof.
  intros H. rewrite (hasPrompt_run w this o), (getPrompt_run w this o) by done.
  split; [eauto|]. intros ->. simpl.
  destruct (cache o !! fileName) as [content|] eqn:Hc.
  - rewrite bool_decide_eq_true_2 by done. split; eauto.
  - rewrite bool_decide_eq_false_2 by by intros [? ?].
    split; [done|]. by intros [? ?].
Qed.

(** X8: unless the store is ready and misses the identifier,
    [getPromptWithFallback] is [getPrompt]: same outcome, the world as it
    was, and the source is not read. *)
Theorem getPromptWithFallback_is_getPrompt w this o fileName :
  caches w !! this = Some o →
  initialized o = false ∨ is_Some (cache o !! fileName) →
  PromptCache.getPromptWithFallback this fileName w
  = PromptCache.getPrompt this fileName w ∧
  (PromptCache.getPromptWithFallback this fileName w).2 = w.
Proof.
  intros H Hcase. rewrite (getPrompt_run w this o) by done.
  unfold PromptCache.getPromptWithFallback.
  erewrite bind_return by by apply PromptCache_read_live.
  destruct (initialized o); simpl.
  - destruct Hcase as [|[content ->]]; done.
  - done.
Qed.

(** X9: the first [getInstance] of a process creates the store, not ready
    and empty, with the location and the suffixes it is given or else the
    defaults ["src/prompts"] and [.txt], [.md], [.prompt]; every later call
    returns that store and its arguments change nothing. *)
Theorem first_getInstance_configures w dir exts dir' exts' :
  PromptCache_instance w = None →
  let r := PromptCache.getInstance dir exts w in
  r.1 = Return (length (caches w)) ∧
  caches r.2 = caches w ++ [ mk ∅ false (default "src/prompts" dir)
                                (default [".txt"; ".md"; ".prompt"] exts) ] ∧
  PromptCache.getInstance dir' exts' r.2 = (Return (length (caches w)), r.2).
Proof.
  intros Hnone r.
  assert (r = (Return (length (caches w)),
               set_PromptCache_instance (Some (length (caches w)))
                 (set_caches (caches w ++ [ mk ∅ false (default "src/prompts" dir)
                                (default [".txt"; ".md"; ".prompt"] exts) ]) w))) as ->.
  { subst r. unfold PromptCache.getInstance. by rewrite Hnone. }
  do 2 (split; [done|]). by apply getInstance_existing.
Qed.

End StoreProperties.

(** ** Variable definitions *)

Section Variables.
Implicit Types (w : World) (m : gmap string string) (this : VariableDefinitionsObj).

Lemma maps_insert_lookup w l m m' :
  maps w !! l = Some m →
  maps (set_maps (<[l := m']> (maps w)) w) !! l = Some m'.
Proof. intros H. simpl. apply list_lookup_insert_eq. by eapply lookup_lt_Some. Qed.

Lemma maps_insert_lookup_ne w l l' m' :
  l ≠ l' → maps (set_maps (<[l := m']> (maps w)) w) !! l' = maps w !! l'.
Proof. intros H. simpl. by apply list_lookup_insert_ne. Qed.

(** X10: after [setVariable(name, value)], [getVariable(name)] gives the
    value and [hasVariable(name)] is [true]; every other name, and every
    other map, is as before. *)
Theorem setVariable_then_getVariable w this m name value :
  maps w !! variableMap this = Some m →
  let r := VariableDefinitions.setVariable this name value w in
  r.1 = Return tt ∧
  (VariableDefinitions.getVariable this name r.2).1 = Return (Some value) ∧
  (VariableDefinitions.hasVariable this name r.2).1 = Return true ∧
  (∀ other, other ≠ name →
     (VariableDefinitions.getVariable this other r.2).1 = Return (m !! other)) ∧
  (∀ l, l ≠ variableMap this → maps r.2 !! l = maps w !! l).
Proof.
  intros H r. subst r. unfold VariableDefinitions.setVariable.
  rewrite (JsMap_set_live w _ m) by done. cbn [fst snd].
  pose proof (maps_insert_lookup w _ m (<[name:=value]> m) H) as H'.
  unfold VariableDefinitions.getVariable, VariableDefinitions.hasVariable.
  split; [done|]. split; [|split; [|split]].
  - rewrite (JsMap_get_live _ _ _ _ H'). by rewrite lookup_insert_eq.
  - rewrite (JsMap_has_live _ _ _ _ H'). by rewrite lookup_insert_eq.
  - intros other Hne. rewrite (JsMap_get_live _ _ _ _ H').
    by rewrite lookup_insert_ne.
  - intros l Hne. by apply maps_insert_lookup_ne.
Qed.

(** [setVariable] of a name that is defined keeps [size()], and of a
    new name raises it by one. *)
Lemma setVariable_size w this m name value :
  maps w !! variableMap this = Some m →
  (VariableDefinitions.size this w).1 = Return (size m) ∧
  (VariableDefinitions.size this
     (VariableDefinitions.setVariable this name value w).2).1
  = Return (if bool_decide (is_Some (m !! name)) then size m else S (size m)).
Proof.
  intros H. unfold VariableDefinitions.size, VariableDefinitions.setVariable.
  rewrite (JsMap_set_live w _ m) by done. cbn [snd].
  erewrite bind_return by by apply JsMap_read_live.
  erewrite bind_return by by eapply JsMap_read_live, maps_insert_lookup.
  split; [done|]. cbn [ret fst]. f_equal.
  case_bool_decide as Hin.
  - destruct Hin as [old Hold]. by eapply map_size_insert_Some.
  - apply map_size_insert_None. by apply eq_None_not_Some.
Qed.

(** After [clear()] no name is defined and [size()] is zero. *)
Lemma clear_empties w this m :
  maps w !! variableMap this = Some m →
  let r := VariableDefinitions.clear this w in
  r.1 = Return tt ∧
  (VariableDefinitions.size this r.2).1 = Return 0 ∧
  ∀ name,
    (VariableDefinitions.getVariable this name r.2).1 = Return None ∧
    (VariableDefinitions.hasVariable this name r.2).1 = Return false.
Proof.
  intros H r.
  assert (r = (Return tt, set_maps (<[variableMap this := ∅]> (maps w)) w)) as ->.
  { subst r. unfold VariableDefinitions.clear, JsMap.clear, JsMap.write.
    by erewrite bind_return by by apply deref_live. }
  pose proof (maps_insert_lookup w _ m ∅ H) as H'. cbn [fst snd].
  split; [done|]. split.
  - unfold VariableDefinitions.size.
    by erewrite bind_return by by apply JsMap_read_live.
  - intros name. unfold VariableDefinitions.getVariable, VariableDefinitions.hasVariable.
    rewrite (JsMap_get_live _ _ _ _ H'), (JsMap_has_live _ _ _ _ H').
    by rewrite lookup_empty.
Qed.

(** [getVariableMap()] returns a new map with the entries of the
    definitions: it is none of the maps that existed, and writing to it
    does not change what [getVariable] gives. *)
Lemma getVariableMap_is_a_copy w this m :
  maps w !! variableMap this = Some m →
  let r := VariableDefinitions.getVariableMap this w in
  r.1 = Return (length (maps w)) ∧
  maps w !! length (maps w) = None ∧
  maps r.2 !! length (maps w) = Some m ∧
  ∀ key val name,
    (VariableDefinitions.getVariable this name
       (JsMap.set (length (maps w)) key val r.2).2).1
    = Return (m !! name).
Proof.
  intros H r. subst r. unfold VariableDefinitions.getVariableMap.
  rewrite (JsMap_copy_live w _ m) by done. cbn [fst snd].
  assert (maps (set_maps (maps w ++ [m]) w) !! length (maps w) = Some m) as Hcopy.
  { simpl. rewrite lookup_app_r by done. by rewrite Nat.sub_diag. }
  split; [done|]. split; [by apply lookup_ge_None|]. split; [done|].
  intros key val name. rewrite (JsMap_set_live _ _ m) by done. cbn [snd].
  unfold VariableDefinitions.getVariable.
  erewrite JsMap_get_live; [done|].
  rewrite maps_insert_lookup_ne; last first.
  { apply lookup_lt_Some in H. lia. }
  simpl. by apply lookup_app_l_Some.
Qed.

(** X11: [new VariableDefinitions(map)] copies the map: the definitions
    hold its entries in a map of their own, and a later write to the map
    of the caller does not reach them. *)
Theorem constructor_copies_the_map w map m :
  maps w !! map = Some m →
  let r := VariableDefinitions.new (Some (inl map)) w in
  ∃ this,
    r.1 = Return this ∧
    maps w !! variableMap this = None ∧
    (∀ name, (VariableDefinitions.getVariable this name r.2).1 = Return (m !! name)) ∧
    ∀ key val name,
      (VariableDefinitions.getVariable this name (JsMap.set map key val r.2).2).1
      = Return (m !! name).
Proof.
  intros H r. subst r. rewrite (VariableDefinitions_new_live w map m) by done.
  eexists. split; [done|]. cbn [fst snd variableMap].
  assert (maps (set_maps (maps w ++ [∅; m]) w) !! S (length (maps w)) = Some m) as Hnew.
  { simpl. rewrite lookup_app_r by lia.
    by replace (S (length (maps w)) - length (maps w)) with 1 by lia. }
  split; [apply lookup_ge_None; lia|]. split.
  - intros name. unfold VariableDefinitions.getVariable.
    by rewrite (JsMap_get_live _ _ m).
  - intros key val name. rewrite (JsMap_set_live _ _ m); last first.
    { simpl. by apply lookup_app_l_Some. }
    cbn [snd]. unfold VariableDefinitions.getVariable.
    erewrite JsMap_get_live; [done|]. cbn [variableMap].
    rewrite maps_insert_lookup_ne; [done|].
    apply lookup_lt_Some in H. lia.
Qed.

Lemma for_of_set_array w l array :
  ∀ m, maps w !! l = Some m →
  for_of array tt (λ _ varDef, JsMap.set l (name varDef) (value varDef)) w
  = (Return tt,
     set_maps (<[l := insert_all ((λ d, (name d, value d)) <$> array) m]> (maps w)) w).
Proof.
  revert w. induction array as [|d array IH]; intros w m Hl; simpl.
  - unfold ret. f_equal. destruct w; unfold set_maps; simpl in *.
    by rewrite list_insert_id.
  - erewrite bind_return by by apply JsMap_set_live.
    erewrite IH.
    + rewrite set_maps_set_maps. simpl. by rewrite list_insert_insert_eq.
    + simpl. apply list_lookup_insert_eq. by eapply lookup_lt_Some.
Qed.

Lemma insert_all_last array :
  ∀ m variable,
    insert_all ((λ d, (name d, value d)) <$> array) m !! variable
    = match last_definition array variable with
      | Some v => Some v
      | None => m !! variable
      end.
Proof.
  unfold insert_all, last_definition.
  induction array as [|d array IH]; intros m variable; [done|].
  simpl. rewrite IH, filter_cons. case_decide as Hd.
  - destruct (filter _ array) as [|d' l] eqn:Hf; simpl.
    + by rewrite Hd, lookup_insert_eq.
    + destruct (last (d' :: l)) eqn:Hl; simpl; [done|]. by apply last_None in Hl.
  - destruct (last (filter _ array)); simpl; [done|]. by rewrite lookup_insert_ne.
Qed.

(** X12: [setVariables] with an array of definitions: for each name the
    last definition of the array counts, and the names the array does not
    define keep their value. *)
Theorem setVariables_array_last_wins w this m array :
  maps w !! variableMap this = Some m →
  let r := VariableDefinitions.setVariables this (inr array) w in
  r.1 = Return tt ∧
  ∀ variable,
    (VariableDefinitions.getVariable this variable r.2).1
    = Return (match last_definition array variable with
              | Some v => Some v
              | None => m !! variable
              end).
Proof.
  intros H r. subst r. unfold VariableDefinitions.setVariables.
  rewrite (for_of_set_array w _ array m) by done. split; [done|].
  intros variable. unfold VariableDefinitions.getVariable. cbn [snd].
  erewrite JsMap_get_live by by eapply maps_insert_lookup.
  by rewrite insert_all_last.
Qed.

(** X13: [new VariableDefinitions(array)] defines exactly the names of the
    array, each with the value of its last definition; without an argument
    it defines nothing. *)
Theorem constructor_from_array w array :
  (let r := VariableDefinitions.new (Some (inr array)) w in
   ∃ this, r.1 = Return this ∧
     maps w !! variableMap this = None ∧
     ∀ variable,
       (VariableDefinitions.getVariable this variable r.2).1
       = Return (last_definition array variable)) ∧
  (let r := VariableDefinitions.new None w in
   ∃ this, r.1 = Return this ∧
     maps w !! variableMap this = None ∧
     ∀ variable,
       (VariableDefinitions.getVariable this variable r.2).1 = Return None).
Proof.
  assert (maps (set_maps (maps w ++ [∅]) w) !! length (maps w) = Some ∅) as Hnew.
  { simpl. rewrite lookup_app_r by done. by rewrite Nat.sub_diag. }
  split; intros r; subst r; unfold VariableDefinitions.new;
    (erewrite bind_return by done).
  - erewrite bind_return by by apply (for_of_set_array _ _ array ∅).
    eexists. split; [done|]. cbn [fst snd variableMap].
    split; [by apply lookup_ge_None|]. intros variable.
    unfold VariableDefinitions.getVariable.
    erewrite JsMap_get_live by by eapply maps_insert_lookup.
    rewrite insert_all_last. cbn [fst]. f_equal.
    by destruct (last_definition array variable).
  - eexists. split; [done|]. cbn [fst snd variableMap].
    split; [by apply lookup_ge_None|]. intros variable.
    unfold VariableDefinitions.getVariable.
    by rewrite (JsMap_get_live _ _ ∅).
Qed.

(** X14: [setVariables] with a [Map] writes the entries of the argument
    over those of the definitions, keeps the other names, and leaves the
    argument with its entries. *)
Theorem setVariables_map_merges w this target variables source :
  maps w !! variableMap this = Some target →
  maps w !! variables = Some source →
  let r := VariableDefinitions.setVariables this (inl variables) w in
  r.1 = Return tt ∧
  maps r.2 !! variables = Some source ∧
  ∀ variable,
    (VariableDefinitions.getVariable this variable r.2).1
    = Return (match source !! variable with
              | Some v => Some v
              | None => target !! variable
              end).
Proof.
  intros Ht Hs r. subst r.
  rewrite (setVariables_live w this target variables source) by done.
  cbn [fst snd]. split; [done|]. split.
  - destruct (decide (variableMap this = variables)) as [<-|Hne].
    + rewrite (maps_insert_lookup w _ target) by done.
      f_equal. replace source with target by congruence. apply map_eq. intros k.
      rewrite lookup_union. by destruct (target !! k).
    + by rewrite maps_insert_lookup_ne.
  - intros variable. unfold VariableDefinitions.getVariable.
    erewrite JsMap_get_live by by eapply maps_insert_lookup.
    rewrite lookup_union. by destruct (source !! variable), (target !! variable).
Qed.

End Variables.

(** ** The engine around a request *)

Section EngineProperties.
Import TemplateEngineObj.
Implicit Types (w : World) (o : TemplateEngineObj.t).

Lemma getPrompt_same_caches w w' this fileName :
  caches w' = caches w →
  (PromptCache.getPrompt this fileName w').1 = (PromptCache.getPrompt this fileName w).1.
Proof.
  intros Hc. unfold PromptCache.getPrompt, bind, PromptCache.read, deref. rewrite Hc.
  destruct (caches w !! this) as [s|]; [|done].
  destruct (PromptCacheObj.initialized s); [|done]. simpl.
  by destruct (PromptCacheObj.cache s !! fileName).
Qed.

(** The outcome of [processTemplate] on a live engine, in terms of the
    fetch and of [try_block] *)
Lemma processTemplate_outcome w this o base arg options fileName :
  engines w !! this = Some o →
  maps w !! variableMap (variableDefinitions o) = Some base →
  overrides_live w arg →
  (TemplateEngine.processTemplate this fileName arg options w).1
  = if initialized o then
      match (PromptCache.getPrompt (promptCache o) fileName w).1 with
      | Throw (TemplateEngineError type) => Throw (TemplateEngineError type)
      | Throw OtherError => Throw (TemplateEngineError PROCESSING_ERROR)
      | Return text =>
          try_block text (discovered (processingOptions_of arg options) text)
                    (merge base (overrides_of w arg))
                    (processingOptions_of arg options)
      end
    else Throw (TemplateEngineError INITIALIZATION_ERROR).
Proof.
  intros Ho Hbase Hov. destruct (initialized o) eqn:Hinit.
  - rewrite (processTemplate_run w this o base) by done.
    by destruct (PromptCache.getPrompt _ _ _).1 as [text|[type|]].
  - by rewrite (processTemplate_not_initialized w this o).
Qed.

(** X15: [processTemplate] writes no object that existed before the call,
    whatever its outcome: every map of the world, the override among them,
    keeps its entries, and the stores, the engines and the singleton are
    as before. *)
Theorem processTemplate_writes_nothing w this o base fileName arg options :
  engines w !! this = Some o →
  maps w !! variableMap (variableDefinitions o) = Some base →
  overrides_live w arg →
  let w' := (TemplateEngine.processTemplate this fileName arg options w).2 in
  (∀ l m, maps w !! l = Some m → maps w' !! l = Some m) ∧
  caches w' = caches w ∧ engines w' = engines w ∧
  PromptCache_instance w' = PromptCache_instance w.
Proof.
  intros Ho Hbase Hov w'.
  destruct (processTemplate_frame w this o base fileName arg options)
    as (He & Hc & Hi & _ & allocated & Hm); [done..|].
  fold w' in He, Hc, Hi, Hm. split; [|done].
  intros l m Hl. rewrite Hm. by apply lookup_app_l_Some.
Qed.

(** A call of [processTemplate] repeated with the same arguments
    completes as the first one did. *)
Lemma processTemplate_again w this o base fileName arg options :
  engines w !! this = Some o →
  maps w !! variableMap (variableDefinitions o) = Some base →
  overrides_live w arg →
  let w' := (TemplateEngine.processTemplate this fileName arg options w).2 in
  (TemplateEngine.processTemplate this fileName arg options w').1
  = (TemplateEngine.processTemplate this fileName arg options w).1.
Proof.
  intros Ho Hbase Hov w'.
  destruct (processTemplate_frame w this o base fileName arg options)
    as (He & Hc & Hi & _ & allocated & Hm); [done..|].
  fold w' in He, Hc, Hi, Hm.
  assert (∀ l m, maps w !! l = Some m → maps w' !! l = Some m) as Hkeep.
  { intros l m Hl. rewrite Hm. by apply lookup_app_l_Some. }
  assert (overrides_live w' arg ∧ overrides_of w' arg = overrides_of w arg) as [Hov' Hsame].
  { destruct arg as [map| |]; simpl in Hov |- *; [|done..].
    destruct Hov as [m Hmap]. pose proof (Hkeep _ _ Hmap) as Hmap'.
    split; [by exists m|]. by rewrite Hmap. }
  rewrite (processTemplate_outcome w' this o base), (processTemplate_outcome w this o base);
    [|done|done|done|by rewrite He|by apply Hkeep|done].
  by rewrite Hsame, (getPrompt_same_caches w w').
Qed.

(** X16: the three sets of a result have no duplicates: a token that
    occurs several times in the text is discovered, replaced or left
    unresolved once. *)
Theorem result_sets_have_no_duplicates w this o base fileName arg options result :
  engines w !! this = Some o →
  maps w !! variableMap (variableDefinitions o) = Some base →
  overrides_live w arg →
  (TemplateEngine.processTemplate this fileName arg options w).1 = Return result →
  NoDup (variablesFound result) ∧
  NoDup (variablesReplaced result) ∧
  NoDup (undefinedVariables result).
Proof.
  intros Ho Hbase Hov. rewrite (processTemplate_outcome w this o base) by done.
  destruct (initialized o); [|done].
  destruct (PromptCache.getPrompt _ _ _).1 as [text|[type|]]; [|done..].
  set (found := discovered _ text).
  assert (NoDup found) as Hnd by apply discovered_NoDup.
  destruct (decide (found = [])) as [Hnil|Hne].
  - unfold try_block. rewrite Hnil. simpl.
    destruct (strict _); [done|]. intros [= <-]. simpl.
    repeat split; apply NoDup_nil_2.
  - intros (_ & -> & -> & ->)%try_block_result; [|done..].
    repeat split; [done|by apply NoDup_filter..].
Qed.

Lemma try_block_all_defined text found merged options :
  NoDup found → found ≠ [] →
  (∀ token, token ∈ found → is_Some (merged !! token)) →
  try_block text found merged options
  = Return {| processedTemplate := substitute merged found text;
              variablesFound := found;
              variablesReplaced := found;
              undefinedVariables := [] |}.
Proof.
  intros Hnd Hne Hall.
  assert (filter (λ v, is_Some (merged !! v)) found = found) as Hdefined.
  { clear Hne Hnd. induction found as [|t ts IH]; [done|].
    rewrite filter_cons, decide_True by (apply Hall; left).
    f_equal. apply IH. intros token Hin. apply Hall. by right. }
  assert (filter (λ v, merged !! v = None) found = []) as Hundefined.
  { clear Hne Hnd Hdefined. induction found as [|t ts IH]; [done|].
    rewrite filter_cons, decide_False.
    - apply IH. intros token Hin. apply Hall. by right.
    - destruct (Hall t) as [v Hv]; [left|]. by rewrite Hv. }
  destruct (try_block text found merged options) as [result|e] eqn:Hres.
  - apply try_block_result in Hres as (Ht & Hf & Hr & Hu); [|done..].
    destruct result. simpl in *. subst. by rewrite Hdefined, Hundefined.
  - exfalso. revert Hres. unfold try_block.
    rewrite bool_decide_eq_false_2 by by destruct found.
    rewrite missing_fold, Hundefined. simpl.
    by destruct (validating options).
Qed.

(** When the options [popts] that the call runs with have
    [validateVariables] [false] and the text has a token, the call returns:
    the defined tokens are replaced and the others are recorded as
    unresolved. *)
Lemma no_validation_outcome
      w this o store base fileName text arg options :
  engines w !! this = Some o →
  maps w !! variableMap (variableDefinitions o) = Some base →
  overrides_live w arg →
  initialized o = true →
  caches w !! promptCache o = Some store →
  PromptCacheObj.initialized store = true →
  PromptCacheObj.cache store !! fileName = Some text →
  let popts := processingOptions_of arg options in
  let found := discovered popts text in
  let merged := merge base (overrides_of w arg) in
  validateVariables popts = Some false →
  found ≠ [] →
  (TemplateEngine.processTemplate this fileName arg options w).1
  = Return {| processedTemplate := substitute merged found text;
              variablesFound := found;
              variablesReplaced := filter (λ v, is_Some (merged !! v)) found;
              undefinedVariables := filter (λ v, merged !! v = None) found |}.
Proof.
  intros Ho Hbase Hov Hinit Hstore Hready Hcached popts found merged Hval Hne.
  rewrite (processTemplate_fetched w this o store base fileName text) by done.
  cbn [fst]. fold popts found merged.
  destruct (try_block text found merged popts) as [result|e] eqn:Hres.
  - apply try_block_result in Hres as (Ht & Hf & Hr & Hu);
      [|apply discovered_NoDup|done].
    destruct result. simpl in *. by subst.
  - exfalso. revert Hres. unfold try_block, validating. rewrite Hval.
    rewrite bool_decide_eq_false_2 by by destruct found.
    by rewrite bool_decide_eq_false_2 by by intros [].
Qed.

(** X17: options with [validateVariables] [false] that are passed as second
    argument, or as third argument behind a [Map] of overrides, on a text
    with at least one token: [processTemplate] returns whatever
    [strictMode] is, the defined tokens are replaced and the others are
    recorded as unresolved.  Passed as third argument behind [undefined]
    the options are not read: that call completes as the call without
    options. *)
Theorem no_validation_never_fails
        w this o store base fileName text popts :
  engines w !! this = Some o →
  maps w !! variableMap (variableDefinitions o) = Some base →
  initialized o = true →
  caches w !! promptCache o = Some store →
  PromptCacheObj.initialized store = true →
  PromptCacheObj.cache store !! fileName = Some text →
  validateVariables popts = Some false →
  discovered popts text ≠ [] →
  let found := discovered popts text in
  let outcome merged :=
    Return {| processedTemplate := substitute merged found text;
              variablesFound := found;
              variablesReplaced := filter (λ v, is_Some (merged !! v)) found;
              undefinedVariables := filter (λ v, merged !! v = None) found |} in
  (∀ options,
     (TemplateEngine.processTemplate this fileName (IsOptions popts) options w).1
     = outcome base) ∧
  (∀ overrides m,
     maps w !! overrides = Some m →
     (TemplateEngine.processTemplate this fileName (IsMap overrides) (Some popts) w).1
     = outcome (m ∪ base)) ∧
  TemplateEngine.processTemplate this fileName IsUndefined (Some popts) w
  = TemplateEngine.processTemplate this fileName IsUndefined None w.
Proof.
  intros Ho Hbase Hinit Hstore Hready Hcached Hval Hne found outcome.
  split; [|split; [|done]].
  - intros options.
    by apply (no_validation_outcome w this o store base fileName text
                (IsOptions popts) options).
  - intros overrides m Hm.
    pose proof (no_validation_outcome w this o store base fileName text
                  (IsMap overrides) (Some popts)) as Hrun.
    cbn [overrides_live overrides_of processingOptions_of default] in Hrun.
    rewrite Hm in Hrun. by apply Hrun.
Qed.

(** X18: when the merged mapping defines every discovered token, and there
    is at least one, [processTemplate] returns under all options: every
    token is replaced and none is unresolved. *)
Theorem all_defined_all_replaced
        w this o store base fileName text arg options :
  engines w !! this = Some o →
  maps w !! variableMap (variableDefinitions o) = Some base →
  overrides_live w arg →
  initialized o = true →
  caches w !! promptCache o = Some store →
  PromptCacheObj.initialized store = true →
  PromptCacheObj.cache store !! fileName = Some text →
  let popts := processingOptions_of arg options in
  let found := discovered popts text in
  let merged := merge base (overrides_of w arg) in
  found ≠ [] →
  (∀ token, token ∈ found → is_Some (merged !! token)) →
  (TemplateEngine.processTemplate this fileName arg options w).1
  = Return {| processedTemplate := substitute merged found text;
              variablesFound := found;
              variablesReplaced := found;
              undefinedVariables := [] |}.
Proof.
  intros Ho Hbase Hov Hinit Hstore Hready Hcached popts found merged Hne Hall.
  rewrite (processTemplate_fetched w this o store base fileName text) by done.
  cbn [fst]. apply try_block_all_defined; [apply discovered_NoDup|done..].
Qed.

(** X19: the deprecated [replaceVariablesInPrompt] works with the baseline
    alone, in strict mode and with validation: it fails with
    [VALIDATION_ERROR] for a text without tokens and with
    [VARIABLE_NOT_DEFINED] when the baseline misses a token; otherwise it
    returns the substituted text. *)
Theorem replaceVariablesInPrompt_outcome w this o store base fileName text :
  engines w !! this = Some o →
  maps w !! variableMap (variableDefinitions o) = Some base →
  initialized o = true →
  caches w !! promptCache o = Some store →
  PromptCacheObj.initialized store = true →
  PromptCacheObj.cache store !! fileName = Some text →
  let found := discovered no_options text in
  (TemplateEngine.replaceVariablesInPrompt this fileName w).1
  = if bool_decide (found = []) then Throw (TemplateEngineError VALIDATION_ERROR)
    else if bool_decide (Forall (λ token, is_Some (base !! token)) found)
         then Return (substitute base found text)
         else Throw (TemplateEngineError VARIABLE_NOT_DEFINED).
Proof.
  intros Ho Hbase Hinit Hstore Hready Hcached found.
  unfold TemplateEngine.replaceVariablesInPrompt, bind.
  pose proof (processTemplate_fetched w this o store base fileName text IsUndefined None
                Ho Hbase I Hinit Hstore Hready Hcached) as Hrun.
  cbn [processingOptions_of overrides_of merge] in Hrun. fold found in Hrun.
  rewrite Hrun. case_bool_decide as Hnil.
  { unfold try_block. by rewrite Hnil. }
  case_bool_decide as Hall.
  - rewrite try_block_all_defined; [done|apply discovered_NoDup|done|].
    by apply Forall_forall.
  - assert (try_block text found base no_options
            = Throw (TemplateEngineError VARIABLE_NOT_DEFINED)) as ->; [|done].
    unfold try_block. rewrite bool_decide_eq_false_2 by by destruct found.
    cbn. rewrite bool_decide_eq_true_2; [done|].
    apply missing_positive. apply not_Forall_Exists in Hall; [|apply _].
    apply Exists_exists in Hall as (token & Hin & Hnone).
    exists token. split; [done|]. by apply eq_None_not_Some.
Qed.

End EngineProperties.

(** ** Constructing, initializing and updating an engine *)

Section EngineLifecycle.
Import TemplateEngineObj.
Implicit Types (w : World) (o : TemplateEngineObj.t).

Lemma TemplateEngine_new_run w cfg m :
  maps w !! TemplateEngineConfig.variableDefinitions cfg = Some m →
  TemplateEngine.new cfg w
  = let w1 := set_maps (maps w ++ [∅; m]) w in
    let vd := {| variableMap := S (length (maps w)) |} in
    match PromptCache_instance w with
    | Some store =>
        (Return (length (engines w)),
         set_engines (engines w ++ [mk store vd cfg false]) w1)
    | None =>
        (Return (length (engines w)),
         set_engines (engines w ++ [mk (length (caches w)) vd cfg false])
           (set_PromptCache_instance (Some (length (caches w)))
              (set_caches
                 (caches w ++
                    [ PromptCacheObj.mk ∅ false
                        (TemplateEngineConfig.promptsDirectory cfg)
                        (default [".txt"; ".md"; ".prompt"]
                                 (TemplateEngineConfig.promptFileExtensions cfg)) ])
                 w1)))
    end.
Proof.
  intros Hm. unfold TemplateEngine.new.
  erewrite bind_return by by apply VariableDefinitions_new_live.
  unfold bind, PromptCache.getInstance. cbn [PromptCache_instance set_maps].
  by destruct (PromptCache_instance w).
Qed.

(** X20: [new TemplateEngine(config)] gives an engine that is not
    initialized and whose baseline is a new map with the entries of the
    map of the configuration; no map, store or engine that existed is
    changed.  The engine is on the singleton store; where there was none,
    the store is created from the location and the suffixes of the
    configuration. *)
Theorem new_engine w cfg m :
  maps w !! TemplateEngineConfig.variableDefinitions cfg = Some m →
  let r := TemplateEngine.new cfg w in
  ∃ o,
    r.1 = Return (length (engines w)) ∧
    engines r.2 = engines w ++ [o] ∧
    initialized o = false ∧ config o = cfg ∧
    maps w !! variableMap (variableDefinitions o) = None ∧
    maps r.2 !! variableMap (variableDefinitions o) = Some m ∧
    (∀ l x, maps w !! l = Some x → maps r.2 !! l = Some x) ∧
    match PromptCache_instance w with
    | Some store =>
        promptCache o = store ∧ caches r.2 = caches w ∧
        PromptCache_instance r.2 = Some store
    | None =>
        promptCache o = length (caches w) ∧
        PromptCache_instance r.2 = Some (length (caches w)) ∧
        caches r.2
        = caches w ++
            [ PromptCacheObj.mk ∅ false
                (TemplateEngineConfig.promptsDirectory cfg)
                (default [".txt"; ".md"; ".prompt"]
                         (TemplateEngineConfig.promptFileExtensions cfg)) ]
    end.
Proof.
  intros Hm r. subst r. rewrite (TemplateEngine_new_run w cfg m) by done. cbv zeta.
  assert ((maps w ++ [∅; m]) !! S (length (maps w)) = Some m) as Hnew.
  { rewrite lookup_app_r by lia.
    by replace (S (length (maps w)) - length (maps w)) with 1 by lia. }
  assert (∀ l x, maps w !! l = Some x → (maps w ++ [∅; m]) !! l = Some x) as Hkeep.
  { intros l x Hl. by apply lookup_app_l_Some. }
  destruct (PromptCache_instance w) as [store|] eqn:Hinstance; eexists; cbn;
    (split; [done|]); (split; [done|]); (split; [done|]); (split; [done|]);
    (split; [apply lookup_ge_None; simpl; lia|]); (split; [exact Hnew|]);
    (split; [exact Hkeep|]); by repeat split.
Qed.

Lemma PromptCache_initialize_frame w store :
  let w' := (PromptCache.initialize store w).2 in
  engines w' = engines w ∧ maps w' = maps w ∧
  PromptCache_instance w' = PromptCache_instance w ∧ fs w' = fs w.
Proof.
  destruct (caches w !! store) as [s|] eqn:Hs.
  - rewrite (PromptCache_initialize_run w store s) by done.
    destruct (readdir _ _); [|done]. cbv zeta. by destruct (forallb _ _).
  - assert (PromptCache.initialize store w
            = (Throw (TemplateEngineError CACHE_ERROR), w)) as ->; [|done].
    unfold PromptCache.initialize, try_catch, PromptCache.scanPromptsDirectory.
    unfold bind, PromptCache.read, deref. by rewrite Hs.
Qed.

Lemma TemplateEngine_initialize_run w this o :
  engines w !! this = Some o →
  TemplateEngine.initialize this w
  = let s := if bool_decide (TemplateEngineConfig.enableCaching (config o) ≠ Some false)
             then PromptCache.initialize (promptCache o) w
             else (Return tt, w) in
    match s.1 with
    | Return _ =>
        (Return tt,
         set_engines (<[this := mk (promptCache o) (variableDefinitions o)
                                   (config o) true]> (engines w)) s.2)
    | Throw _ => (Throw (TemplateEngineError INITIALIZATION_ERROR), s.2)
    end.
Proof.
  intros Ho. unfold TemplateEngine.initialize, try_catch.
  erewrite bind_return by by apply TemplateEngine_read_live.
  cbv zeta. unfold bind at 1.
  set (s := (if bool_decide (TemplateEngineConfig.enableCaching (config o) ≠ Some false)
             then PromptCache.initialize (promptCache o) else ret tt) w).
  assert (s = if bool_decide (TemplateEngineConfig.enableCaching (config o) ≠ Some false)
              then PromptCache.initialize (promptCache o) w
              else (Return tt, w)) as Hs.
  { subst s. by case_bool_decide. }
  assert (engines s.2 = engines w) as He.
  { rewrite Hs. case_bool_decide; [|done]. apply PromptCache_initialize_frame. }
  rewrite <- Hs. destruct s as [[[]|e] w1]; [|done]. simpl in *.
  erewrite bind_return; last first.
  { apply TemplateEngine_read_live. by rewrite He. }
  by rewrite He.
Qed.

(** X21: with caching enabled, the engine's [initialize] initializes the
    store.  When that succeeds the engine is marked initialized; when it
    fails the engine's [initialize] fails with [INITIALIZATION_ERROR] and
    the engine is as before.  Either way the store is as its own
    [initialize] leaves it. *)
Theorem engine_initialize_follows_store w this o :
  engines w !! this = Some o →
  TemplateEngineConfig.enableCaching (config o) ≠ Some false →
  let s := PromptCache.initialize (promptCache o) w in
  let r := TemplateEngine.initialize this w in
  caches r.2 = caches s.2 ∧ maps r.2 = maps w ∧
  match s.1 with
  | Return _ =>
      r.1 = Return tt ∧
      engines r.2 = <[this := mk (promptCache o) (variableDefinitions o)
                                 (config o) true]> (engines w)
  | Throw _ =>
      r.1 = Throw (TemplateEngineError INITIALIZATION_ERROR) ∧
      engines r.2 = engines w
  end.
Proof.
  intros Ho Hcaching s r. subst r.
  rewrite (TemplateEngine_initialize_run w this o) by done.
  rewrite bool_decide_eq_true_2 by done. cbv zeta. fold s.
  destruct (PromptCache_initialize_frame w (promptCache o)) as (He & Hm & _).
  fold s in He, Hm. by destruct s.1.
Qed.


(** X23: [updateVariableDefinitions] writes the entries of its argument
    into the baseline for good: a later [processTemplate] without
    overrides completes as a call with that map as override would have
    completed before the update. *)
Theorem update_is_a_lasting_override
        w this o base variables m fileName options :
  engines w !! this = Some o →
  maps w !! variableMap (variableDefinitions o) = Some base →
  maps w !! variables = Some m →
  let r := TemplateEngine.updateVariableDefinitions this variables w in
  r.1 = Return tt ∧
  maps r.2 !! variableMap (variableDefinitions o) = Some (m ∪ base) ∧
  (TemplateEngine.processTemplate this fileName (IsOptions options) None r.2).1
  = (TemplateEngine.processTemplate this fileName (IsMap variables) (Some options) w).1.
Proof.
  intros Ho Hbase Hm r.
  assert (r = (Return tt,
               set_maps (<[variableMap (variableDefinitions o) := m ∪ base]> (maps w)) w))
    as ->.
  { subst r. unfold TemplateEngine.updateVariableDefinitions.
    erewrite bind_return by by apply TemplateEngine_read_live.
    by apply setVariables_live. }
  cbn [fst snd]. split; [done|].
  set (w1 := set_maps _ w).
  assert (maps w1 !! variableMap (variableDefinitions o) = Some (m ∪ base)) as Hbase1.
  { subst w1. simpl. apply list_lookup_insert_eq. by eapply lookup_lt_Some. }
  split; [done|].
  rewrite (processTemplate_outcome w1 this o (m ∪ base)) by done.
  rewrite (processTemplate_outcome w this o base); [|done|done|by exists m].
  rewrite (getPrompt_same_caches w w1) by done.
  cbn [processingOptions_of overrides_of merge default]. by rewrite Hm.
Qed.

(** X24: [getVariableDefinitions()] returns a new map with the entries of
    the baseline; every map, store and engine that existed is as before,
    and a write to the returned map does not reach the baseline. *)
Theorem getVariableDefinitions_is_a_copy w this o base :
  engines w !! this = Some o →
  maps w !! variableMap (variableDefinitions o) = Some base →
  let r := TemplateEngine.getVariableDefinitions this w in
  r.1 = Return (length (maps w)) ∧
  maps r.2 = maps w ++ [base] ∧
  caches r.2 = caches w ∧ engines r.2 = engines w ∧
  ∀ key val name,
    (VariableDefinitions.getVariable (variableDefinitions o) name
       (JsMap.set (length (maps w)) key val r.2).2).1
    = Return (base !! name).
Proof.
  intros Ho Hbase r.
  assert (r = VariableDefinitions.getVariableMap (variableDefinitions o) w) as ->.
  { subst r. unfold TemplateEngine.getVariableDefinitions.
    by erewrite bind_return by by apply TemplateEngine_read_live. }
  destruct (getVariableMap_is_a_copy w (variableDefinitions o) base Hbase)
    as (_ & _ & _ & Hwrite).
  unfold VariableDefinitions.getVariableMap in *.
  rewrite (JsMap_copy_live w _ base) in * by done.
  by repeat split.
Qed.

(** X25: [processTemplateWithVariables] completes in the same way for a
    plain object as for a [Map] with the same entries. *)
Theorem object_and_map_variables_agree
        w this o base map record fileName options :
  engines w !! this = Some o →
  maps w !! variableMap (variableDefinitions o) = Some base →
  maps w !! map = Some record →
  (TemplateEngine.processTemplateWithVariables this fileName (inr record) options w).1
  = (TemplateEngine.processTemplateWithVariables this fileName (inl map) options w).1.
Proof.
  intros Ho Hbase Hmap. unfold TemplateEngine.processTemplateWithVariables.
  erewrite bind_return by done. erewrite (bind_return (ret map)) by done.
  set (w2 := set_maps (maps w ++ [record]) w).
  assert (maps w2 !! length (maps w) = Some record) as Hnew.
  { subst w2. simpl. rewrite lookup_app_r by done. by rewrite Nat.sub_diag. }
  rewrite (processTemplate_outcome w2 this o base);
    [|done|by apply lookup_app_l_Some|by exists record].
  rewrite (processTemplate_outcome w this o base); [|done|done|by exists record].
  rewrite (getPrompt_same_caches w w2) by done.
  assert (overrides_of w2 (IsMap (length (maps w))) = overrides_of w (IsMap map)) as ->.
  { unfold overrides_of. transitivity (Some record); [exact Hnew|by symmetry]. }
  done.
Qed.

(** X26: [getRequiredVariables] only reads: the world is as before.  It
    fails as the store's [getPrompt] fails, with [INITIALIZATION_ERROR] on
    a store that is not ready and with [FILE_NOT_FOUND] for an identifier
    the store does not hold; otherwise it returns the set of tokens of the
    text, which is empty for a text without tokens, under every
    [strictMode]. *)
Theorem getRequiredVariables_outcome w this o store fileName options :
  engines w !! this = Some o →
  caches w !! promptCache o = Some store →
  TemplateEngine.getRequiredVariables this fileName options w
  = (if PromptCacheObj.initialized store then
       match PromptCacheObj.cache store !! fileName with
       | Some text => Return (discovered (default no_options options) text)
       | None => Throw (TemplateEngineError FILE_NOT_FOUND)
       end
     else Throw (TemplateEngineError INITIALIZATION_ERROR), w).
Proof.
  intros Ho Hstore. unfold TemplateEngine.getRequiredVariables. cbv zeta.
  unfold bind. rewrite (readPromptFile_run w this o) by done.
  rewrite (getPrompt_run w _ store) by done. cbn [fst].
  destruct (PromptCacheObj.initialized store); [|done].
  destruct (PromptCacheObj.cache store !! fileName); [|done].
  apply findUniqueVariablesRequired_run.
Qed.

End EngineLifecycle.

(** ** The default pattern *)

Section Scanner.
Import JsString DefaultPattern.

Lemma startsWith_spec (p : string) :
  ∀ s, startsWith s p = true ↔ ∃ rest, s = p +:+ rest.
Proof.
  induction p as [|a p IH]; intros s; simpl.
  - split; [by exists s|done].
  - destruct s as [|b s]; [split; [done|by intros [? ?]]|].
    rewrite andb_true_iff, bool_decide_eq_true, IH. split.
    + intros [-> [rest ->]]. by exists rest.
    + intros [rest [= -> ->]]. eauto.
Qed.

Lemma startsWith_app_long (p : string) :
  ∀ s rest, String.length p ≤ String.length s →
            startsWith (s +:+ rest) p = startsWith s p.
Proof.
  induction p as [|a p IH]; intros s rest Hlen; [done|].
  destruct s as [|b s]; simpl in Hlen; [lia|].
  rewrite append_cons. simpl. f_equal. apply IH. lia.
Qed.

(** A match of [(.*?)}}]: characters without a line terminator up to the
    first ["}}"] *)
Lemma lazy_body_shape (s : string) :
  ∀ m, lazy_body s = Some m →
       ∃ body rest,
         m = body +:+ "}}" ∧ s = m +:+ rest ∧ single_line body = true ∧
         no_occurrence_before "}}" m (String.length body) = true.
Proof.
  induction s as [|c s IH]; intros m.
  - done.
  - cbn [lazy_body]. destruct (startsWith (String c s) "}}") eqn:Hclose.
    + intros [= <-]. apply startsWith_spec in Hclose as [rest Hrest].
      by exists "", rest.
    + destruct (isLineTerminator c) eqn:Hc; [done|].
      destruct (lazy_body s) as [m'|]; [|done]. intros [= <-].
      destruct (IH m' eq_refl) as (body & rest & -> & -> & Hline & Hfirst).
      exists (String c body), rest. rewrite !append_cons. split; [done|]. split; [done|].
      split; [simpl; by rewrite Hc|].
      cbn [String.length no_occurrence_before]. rewrite Hfirst, andb_true_r.
      apply negb_true_iff. etransitivity; [|exact Hclose]. symmetry.
      apply (startsWith_app_long "}}" (String c (body +:+ "}}")) rest).
      change (String c (body +:+ "}}")) with (String c body +:+ "}}").
      rewrite append_length. simpl. lia.
Qed.

Lemma match_here_shape (s m : string) :
  match_here s = Some m →
  ∃ body rest,
    m = "{{" +:+ body +:+ "}}" ∧ s = m +:+ rest ∧ single_line body = true ∧
    no_occurrence_before "}}" (body +:+ "}}") (String.length body) = true.
Proof.
  unfold match_here. intros Hm.
  repeat case_match; try done; subst.
  destruct (lazy_body _) as [m'|] eqn:Hbody; [|done]. injection Hm as <-.
  destruct (lazy_body_shape _ m' Hbody) as (body & rest & -> & -> & Hline & Hfirst).
  by exists body, rest.
Qed.

Lemma matches_shape (s : string) :
  ∀ skip m, m ∈ matches s skip →
    ∃ before body rest,
      s = before +:+ m +:+ rest ∧ m = "{{" +:+ body +:+ "}}" ∧
      single_line body = true ∧
      no_occurrence_before "}}" (body +:+ "}}") (String.length body) = true.
Proof.
  induction s as [|c s IH]; intros skip m; [by intros ?%elem_of_nil|].
  assert (∀ k, m ∈ matches s k →
            ∃ before body rest,
              String c s = before +:+ m +:+ rest ∧ m = "{{" +:+ body +:+ "}}" ∧
              single_line body = true ∧
              no_occurrence_before "}}" (body +:+ "}}") (String.length body) = true)
    as Hlater.
  { intros k (before & body & rest & -> & Hm)%IH.
    by exists (String c before), body, rest. }
  cbn [matches]. destruct skip as [|skip]; [|apply Hlater].
  destruct (match_here (String c s)) as [m0|] eqn:Hhere; [|apply Hlater].
  intros [->|Hin]%elem_of_cons; [|by eapply Hlater].
  destruct (match_here_shape _ _ Hhere) as (body & rest & -> & Hs & Hline & Hfirst).
  exists "", body, rest. by rewrite Hs.
Qed.

Lemma JsSet_from_elem (xs : list string) (x : string) : x ∈ JsSet.from xs ↔ x ∈ xs.
Proof.
  unfold JsSet.from.
  assert (∀ acc, x ∈ foldl (λ s y, JsSet.add y s) acc xs ↔ x ∈ acc ∨ x ∈ xs) as H.
  { induction xs as [|y xs IH]; intros acc; simpl.
    - rewrite elem_of_nil. tauto.
    - rewrite IH, JsSet_add_elem, elem_of_cons. tauto. }
  rewrite H, elem_of_nil. tauto.
Qed.

Lemma discovered_default options text token :
  variablePattern options = None →
  token ∈ discovered options text ↔ token ∈ matches text 0.
Proof.
  intros Hp. unfold discovered. rewrite Hp. simpl.
  destruct (matches text 0) as [|m ms] eqn:Hm; by rewrite JsSet_from_elem.
Qed.

(** X27: under the default pattern every discovered token is a piece of
    the text, of the form [{{body}}], with delimiters; the body has no
    line terminator, and the closing ["}}"] is the first one after the
    opening. *)
Theorem default_tokens_are_placeholders options text token :
  variablePattern options = None →
  token ∈ discovered options text →
  ∃ before body rest,
    text = before +:+ token +:+ rest ∧ token = "{{" +:+ body +:+ "}}" ∧
    single_line body = true ∧
    no_occurrence_before "}}" (body +:+ "}}") (String.length body) = true.
Proof. intros Hp Hin%discovered_default; [|done]. by eapply matches_shape. Qed.

Lemma lazy_body_complete (body rest : string) :
  single_line body = true → is_Some (lazy_body (body +:+ "}}" +:+ rest)).
Proof.
  induction body as [|c body IH]; intros Hline.
  - by exists "}}".
  - rewrite append_cons. cbn [lazy_body]. simpl in Hline.
    apply andb_true_iff in Hline as [Hc%negb_true_iff Hline].
    destruct (startsWith _ "}}"); [done|]. rewrite Hc.
    by destruct (IH Hline) as [m ->].
Qed.

(** X28: under the default pattern a text with a placeholder [{{body}}]
    on one line has at least one token, so the zero-token path is not
    taken for it. *)
Theorem placeholder_is_discovered options before body rest :
  variablePattern options = None →
  single_line body = true →
  discovered options (before +:+ "{{" +:+ body +:+ "}}" +:+ rest) ≠ [].
Proof.
  intros Hp Hline.
  assert (matches (before +:+ "{{" +:+ body +:+ "}}" +:+ rest) 0 ≠ []) as Hm.
  { induction before as [|c before IH].
    - change ("" +:+ "{{" +:+ body +:+ "}}" +:+ rest)
        with (String "{" (String "{" (body +:+ "}}" +:+ rest))).
      cbn [matches]. unfold match_here.
      by destruct (lazy_body_complete body rest Hline) as [m ->].
    - rewrite append_cons. cbn [matches]. by destruct (match_here _). }
  destruct (matches _ 0) as [|m ms] eqn:Hms; [done|].
  intros Hnil. assert (m ∈ discovered options (before +:+ "{{" +:+ body +:+ "}}" +:+ rest)).
  { apply discovered_default; [done|]. rewrite Hms. left. }
  rewrite Hnil in H. by apply elem_of_nil in H.
Qed.

End Scanner.

(** ** The factory functions *)

Section Factory.
Import TemplateEngineObj.

(** X29: in a process without a store, when the source cannot list the
    location, [createAndInitializeTemplateEngine] fails with
    [INITIALIZATION_ERROR] and leaves the singleton store configured with
    that location; a later call fails in the same way whatever location it
    is given, because the store keeps the first one. *)
Theorem failed_start_pins_the_location w dir dir' map map' m m' :
  PromptCache_instance w = None →
  maps w !! map = Some m →
  maps w !! map' = Some m' →
  readdir (fs w) (default "src/prompts" dir) = None →
  let r := Index.createAndInitializeTemplateEngine dir (Some map) w in
  r.1 = Throw (TemplateEngineError INITIALIZATION_ERROR) ∧
  (PromptCacheObj.promptsDirectory <$> caches r.2 !! length (caches w))
  = Some (default "src/prompts" dir) ∧
  (Index.createAndInitializeTemplateEngine dir' (Some map') r.2).1
  = Throw (TemplateEngineError INITIALIZATION_ERROR).
Proof.
  intros Hnone Hmap Hmap' Hdir r.
  set (store := PromptCacheObj.mk ∅ false (default "src/prompts" dir)
                                  [".txt"; ".md"; ".prompt"]).
  set (cfg := TemplateEngineConfig.mk (default "src/prompts" dir) map (Some true)
                                      (Some [".txt"; ".md"; ".prompt"])).
  set (o := mk (length (caches w)) {| variableMap := S (length (maps w)) |} cfg false).
  set (w1 := set_engines (engines w ++ [o])
               (set_PromptCache_instance (Some (length (caches w)))
                  (set_caches (caches w ++ [store])
                     (set_maps (maps w ++ [∅; m]) w)))).
  assert (∀ w2 this o2,
            engines w2 !! this = Some o2 →
            TemplateEngineConfig.enableCaching (config o2) = Some true →
            promptCache o2 = length (caches w) →
            caches w2 !! length (caches w) = Some store →
            fs w2 = fs w →
            TemplateEngine.initialize this w2
            = (Throw (TemplateEngineError INITIALIZATION_ERROR), w2)) as Hfails.
  { intros w2 this o2 Ho2 Hcaching Hstore2 Hlive Hfs.
    rewrite (TemplateEngine_initialize_run w2 this o2) by done.
    rewrite bool_decide_eq_true_2 by by rewrite Hcaching.
    rewrite Hstore2, (PromptCache_initialize_run w2 _ store) by done.
    cbn [PromptCacheObj.promptsDirectory store]. by rewrite Hfs, Hdir. }
  assert (r = (Throw (TemplateEngineError INITIALIZATION_ERROR), w1)) as ->.
  { subst r. unfold Index.createAndInitializeTemplateEngine, Index.createTemplateEngine.
    cbv zeta. erewrite bind_return; last first.
    { erewrite bind_return by done.
      etransitivity; [apply (TemplateEngine_new_run w cfg m Hmap)|].
      cbv zeta. by rewrite Hnone. }
    erewrite bind_throw; [done|]. apply (Hfails w1 _ o); try done.
    - subst w1. simpl. rewrite lookup_app_r by done. by rewrite Nat.sub_diag.
    - subst w1. simpl. rewrite lookup_app_r by done. by rewrite Nat.sub_diag. }
  cbn [fst snd]. split; [done|]. split.
  { subst w1. simpl. rewrite lookup_app_r by done. by rewrite Nat.sub_diag. }
  set (cfg2 := TemplateEngineConfig.mk (default "src/prompts" dir') map' (Some true)
                                       (Some [".txt"; ".md"; ".prompt"])).
  unfold Index.createAndInitializeTemplateEngine, Index.createTemplateEngine.
  cbv zeta. erewrite bind_return; last first.
  { erewrite bind_return by done.
    etransitivity.
    { apply (TemplateEngine_new_run w1 cfg2 m'). by apply lookup_app_l_Some. }
    cbv zeta. subst w1. cbn [PromptCache_instance set_engines set_PromptCache_instance].
    done. }
  erewrite bind_throw; [done|].
  eapply Hfails.
  - cbn [engines set_engines]. rewrite lookup_app_r by done. by rewrite Nat.sub_diag.
  - done.
  - done.
  - subst w1. simpl. rewrite lookup_app_r by done. by rewrite Nat.sub_diag.
  - done.
Qed.

End Factory.

(** ** More of the concrete run *)

Import Runs.

Local Ltac kept_files_readable :=
  let file := fresh "file" in
  let Hin := fresh "Hin" in
  let Hacc := fresh "Hacc" in
  intros file Hin Hacc;
  repeat (apply elem_of_cons in Hin as [->|Hin]);
  [ .. | by apply elem_of_nil in Hin ];
  first [ by vm_compute in Hacc | by vm_compute; eexists ].

Lemma configure_only_before_initialize_witness :
  PromptCache.configure 0 "other" None ready
  = (Throw (TemplateEngineError INITIALIZATION_ERROR), ready) ∧
  (PromptCache.configure 0 "other" None constructed).1 = Return tt.
Proof.
  split.
  - apply (configure_only_before_initialize ready 0 store0 "other" None); run.
  - destruct (configure_only_before_initialize constructed 0 store_unready "other" None)
      as [_ ->]; run.
Defined.

Lemma scanPromptsDirectory_keeps_suffixes_witness :
  ∃ promptFiles,
    PromptCache.scanPromptsDirectory 0 ready = (Return promptFiles, ready) ∧
    promptFiles `sublist_of` listing ∧
    ∀ file, file ∈ promptFiles ↔
            file ∈ listing ∧
            ∃ ext prefix, ext ∈ [".txt"; ".md"; ".prompt"] ∧ file = prefix +:+ ext.
Proof. apply (scanPromptsDirectory_keeps_suffixes ready 0 store0 listing); run. Defined.

Lemma initialize_loads_kept_files_witness :
  ∃ o',
    PromptCache.initialize 0 constructed
    = (Return tt, set_caches (<[0 := o']> (caches constructed)) constructed) ∧
    PromptCacheObj.initialized o' = true ∧
    PromptCacheObj.cache o' !! "B.md" = Some "{{x}} and {{x}}" ∧
    PromptCacheObj.cache o' !! "notes.log" = None.
Proof.
  destruct (initialize_loads_kept_files constructed 0 store_unready listing)
    as (o' & Hrun & Hflag & _ & _ & Hcache); [run|run|kept_files_readable|].
  exists o'. split; [done|]. split; [done|]. rewrite !Hcache. split; run.
Defined.

Lemma initialize_failure_keeps_flag_witness :
  (PromptCache.initialize 0 unreachable).1 = Throw (TemplateEngineError CACHE_ERROR) ∧
  (PromptCache.isInitialized 0 (PromptCache.initialize 0 unreachable).2).1
  = Return false.
Proof.
  destruct (initialize_failure_keeps_flag unreachable 0 store_elsewhere)
    as (Herr & _ & _ & o' & Ho' & Hflag & _); [run|left; run|].
  split; [done|]. unfold PromptCache.isInitialized, bind, PromptCache.read, deref.
  rewrite Ho'. simpl. by rewrite Hflag.
Defined.

Lemma refresh_reloads_from_scratch_witness :
  (PromptCache.hasPrompt 0 "Q.txt" stale).1 = Return true ∧
  ∃ o',
    PromptCache.refresh 0 stale
    = (Return tt, set_caches (<[0 := o']> (caches stale)) stale) ∧
    PromptCacheObj.cache o' !! "Q.txt" = None ∧
    PromptCacheObj.cache o' !! "A.txt" = Some "Hello {{name}}, you are a {{role}}.".
Proof.
  split; [run|].
  destruct (refresh_reloads_from_scratch stale 0 store_stale listing)
    as (o' & Hrun & _ & _ & _ & Hcache); [run|run|kept_files_readable|].
  exists o'. split; [done|]. rewrite !Hcache. split; run.
Defined.

Lemma refresh_failure_leaves_store_not_ready_witness :
  (PromptCache.getPrompt 0 "A.txt" flaky).1
  = Return "Hello {{name}}, you are a {{role}}." ∧
  (PromptCache.refresh 0 flaky).1 = Throw (TemplateEngineError CACHE_ERROR) ∧
  (PromptCache.getPrompt 0 "A.txt" (PromptCache.refresh 0 flaky).2).1
  = Throw (TemplateEngineError INITIALIZATION_ERROR).
Proof.
  split; [run|].
  destruct (refresh_failure_leaves_store_not_ready flaky 0 store0)
    as (Herr & _ & Hget); [run| |by split].
  right. exists listing, "E.txt". split; [run|]. split; [|split; run].
  do 3 apply list_elem_of_further. apply list_elem_of_here.
Defined.

Lemma hasPrompt_agrees_with_getPrompt_witness :
  (PromptCache.hasPrompt 0 "A.txt" constructed).1 = Return false ∧
  ((PromptCache.hasPrompt 0 "A.txt" ready).1 = Return true
   ↔ ∃ content, (PromptCache.getPrompt 0 "A.txt" ready).1 = Return content).
Proof.
  split; [run|].
  apply (hasPrompt_agrees_with_getPrompt ready 0 store0 "A.txt"); run.
Defined.

Lemma getPromptWithFallback_is_getPrompt_witness :
  PromptCache.getPromptWithFallback 0 "A.txt" ready
  = PromptCache.getPrompt 0 "A.txt" ready ∧
  PromptCache.getPromptWithFallback 0 "A.txt" constructed
  = PromptCache.getPrompt 0 "A.txt" constructed.
Proof.
  split.
  - apply (getPromptWithFallback_is_getPrompt ready 0 store0 "A.txt"); [run|].
    right. eexists. run.
  - apply (getPromptWithFallback_is_getPrompt constructed 0 store_unready "A.txt");
      [run|]. left. run.
Defined.

Lemma first_getInstance_configures_witness :
  let r := PromptCache.getInstance None None start in
  r.1 = Return 0 ∧
  caches r.2 = [PromptCacheObj.mk ∅ false "src/prompts" [".txt"; ".md"; ".prompt"]] ∧
  PromptCache.getInstance (Some "elsewhere") (Some [".log"]) r.2 = (Return 0, r.2).
Proof. apply (first_getInstance_configures start None None); run. Defined.

Lemma setVariable_then_getVariable_witness :
  let r := VariableDefinitions.setVariable {| variableMap := 4 |} "{{role}}" "cook" ready in
  (VariableDefinitions.getVariable {| variableMap := 4 |} "{{role}}" ready).1
  = Return None ∧
  (VariableDefinitions.getVariable {| variableMap := 4 |} "{{role}}" r.2).1
  = Return (Some "cook") ∧
  (VariableDefinitions.getVariable {| variableMap := 4 |} "{{name}}" r.2).1
  = Return (Some "Bob").
Proof.
  intros r. split; [run|].
  destruct (setVariable_then_getVariable ready {| variableMap := 4 |} baseline
              "{{role}}" "cook") as (_ & Hget & _ & Hother & _); [run|].
  split; [exact Hget|]. by rewrite Hother.
Defined.

Lemma constructor_copies_the_map_witness :
  let r := VariableDefinitions.new (Some (inl 0)) ready in
  ∃ this,
    r.1 = Return this ∧
    (VariableDefinitions.getVariable this "{{x}}" r.2).1 = Return (Some "a") ∧
    (VariableDefinitions.getVariable this "{{x}}"
       (JsMap.set 0 "{{x}}" "changed" r.2).2).1 = Return (Some "a").
Proof.
  intros r.
  destruct (constructor_copies_the_map ready 0 baseline)
    as (this & Hthis & _ & Hget & Hlater); [run|].
  exists this. split; [done|]. split; [apply Hget|apply Hlater].
Defined.

Lemma setVariables_array_last_wins_witness :
  let array := [ {| name := "{{x}}"; value := "first"; description := None |};
                 {| name := "{{x}}"; value := "second"; description := Some "again" |} ] in
  let r := VariableDefinitions.setVariables {| variableMap := 4 |} (inr array) ready in
  (VariableDefinitions.getVariable {| variableMap := 4 |} "{{x}}" r.2).1
  = Return (Some "second") ∧
  (VariableDefinitions.getVariable {| variableMap := 4 |} "{{name}}" r.2).1
  = Return (Some "Bob").
Proof.
  intros array r.
  destruct (setVariables_array_last_wins ready {| variableMap := 4 |} baseline array)
    as [_ Hget]; [run|].
  split; by rewrite Hget.
Defined.

Lemma setVariables_map_merges_witness :
  let r := VariableDefinitions.setVariables {| variableMap := 4 |} (inl 1) ready in
  maps r.2 !! 1 = Some override ∧
  (VariableDefinitions.getVariable {| variableMap := 4 |} "{{x}}" r.2).1
  = Return (Some "b") ∧
  (VariableDefinitions.getVariable {| variableMap := 4 |} "{{name}}" r.2).1
  = Return (Some "Bob").
Proof.
  intros r.
  destruct (setVariables_map_merges ready {| variableMap := 4 |} baseline 1 override)
    as (_ & Hsame & Hget); [run|run|].
  split; [exact Hsame|]. split; by rewrite Hget.
Defined.

Lemma processTemplate_writes_nothing_witness :
  let w' := (TemplateEngine.processTemplate 0 "B.md" (IsMap 1) None ready).2 in
  maps w' !! 1 = Some override ∧ maps w' !! 4 = Some baseline ∧
  caches w' = caches ready ∧ engines w' = engines ready.
Proof.
  intros w'.
  destruct (processTemplate_writes_nothing ready 0 engine0 baseline "B.md" (IsMap 1) None)
    as (Hmaps & Hcaches & Hengines & _); [run|run|by exists override|].
  split; [apply Hmaps; run|]. split; [apply Hmaps; run|]. by split.
Defined.

Lemma result_sets_have_no_duplicates_witness :
  NoDup ["{{x}}"] ∧
  (TemplateEngine.processTemplate 0 "B.md" IsUndefined None ready).1
  = Return {| processedTemplate := "a and a";
              variablesFound := ["{{x}}"];
              variablesReplaced := ["{{x}}"];
              undefinedVariables := [] |}.
Proof.
  assert ((TemplateEngine.processTemplate 0 "B.md" IsUndefined None ready).1
          = Return {| processedTemplate := "a and a";
                      variablesFound := ["{{x}}"];
                      variablesReplaced := ["{{x}}"];
                      undefinedVariables := [] |}) as Hrun by run.
  split; [|done].
  apply (result_sets_have_no_duplicates ready 0 engine0 baseline "B.md" IsUndefined None
           _ ltac:(run) ltac:(run) I Hrun).
Defined.

Lemma no_validation_never_fails_witness :
  (TemplateEngine.processTemplate 0 "A.txt" (IsOptions no_validation) None ready).1
  = Return {| processedTemplate := "Hello Bob, you are a {{role}}.";
              variablesFound := ["{{name}}"; "{{role}}"];
              variablesReplaced := ["{{name}}"];
              undefinedVariables := ["{{role}}"] |} ∧
  (TemplateEngine.processTemplate 0 "A.txt" (IsMap 1) (Some no_validation) ready).1
  = Return {| processedTemplate := "Hello Bob, you are a {{role}}.";
              variablesFound := ["{{name}}"; "{{role}}"];
              variablesReplaced := ["{{name}}"];
              undefinedVariables := ["{{role}}"] |} ∧
  (TemplateEngine.processTemplate 0 "A.txt" IsUndefined (Some no_validation) ready).1
  = Throw (TemplateEngineError VARIABLE_NOT_DEFINED).
Proof.
  destruct (no_validation_never_fails ready 0 engine0 store0 baseline "A.txt"
              "Hello {{name}}, you are a {{role}}." no_validation)
    as (Hsecond & Hthird & Hdropped); [run|run|run|run|run|run|run|done|].
  split; [|split].
  - rewrite Hsecond. run.
  - rewrite (Hthird 1 override); run.
  - rewrite Hdropped. run.
Defined.

Lemma all_defined_all_replaced_witness :
  (TemplateEngine.processTemplate 0 "B.md" (IsOptions non_strict) None ready).1
  = Return {| processedTemplate := "a and a";
              variablesFound := ["{{x}}"];
              variablesReplaced := ["{{x}}"];
              undefinedVariables := [] |}.
Proof.
  rewrite (all_defined_all_replaced ready 0 engine0 store0 baseline "B.md"
             "{{x}} and {{x}}" (IsOptions non_strict) None); try run; [done|].
  intros token Hin. vm_compute in Hin.
  apply list_elem_of_singleton in Hin as ->. by exists "a".
Defined.

Lemma replaceVariablesInPrompt_outcome_witness :
  (TemplateEngine.replaceVariablesInPrompt 0 "B.md" ready).1 = Return "a and a" ∧
  (TemplateEngine.replaceVariablesInPrompt 0 "A.txt" ready).1
  = Throw (TemplateEngineError VARIABLE_NOT_DEFINED) ∧
  (TemplateEngine.replaceVariablesInPrompt 0 "E.txt" ready).1
  = Throw (TemplateEngineError VALIDATION_ERROR).
Proof.
  split; [|split].
  - rewrite (replaceVariablesInPrompt_outcome ready 0 engine0 store0 baseline "B.md"
               "{{x}} and {{x}}"); run.
  - rewrite (replaceVariablesInPrompt_outcome ready 0 engine0 store0 baseline "A.txt"
               "Hello {{name}}, you are a {{role}}."); run.
  - rewrite (replaceVariablesInPrompt_outcome ready 0 engine0 store0 baseline "E.txt"
               "no tokens"); run.
Defined.

Lemma new_engine_witness :
  let r := TemplateEngine.new cfg start in
  r.1 = Return 0 ∧ engines r.2 = [engine_constructed] ∧
  maps r.2 !! 4 = Some baseline ∧ maps start !! 4 = None ∧
  caches r.2 = [store_unready].
Proof.
  intros r.
  destruct (new_engine start cfg baseline) as (o & Hloc & Hengines & _); [run|].
  split; [exact Hloc|]. repeat split; run.
Defined.

Lemma engine_initialize_follows_store_witness :
  (TemplateEngine.initialize 0 constructed).1 = Return tt ∧
  engines (TemplateEngine.initialize 0 constructed).2 = [engine0] ∧
  (TemplateEngine.initialize 0 unreachable).1
  = Throw (TemplateEngineError INITIALIZATION_ERROR).
Proof.
  pose proof (engine_initialize_follows_store constructed 0 engine_constructed
                ltac:(run) ltac:(done)) as (_ & _ & Hok).
  pose proof (engine_initialize_follows_store unreachable 0
                (TemplateEngineObj.mk 0 {| variableMap := 4 |} cfg' false)
                ltac:(run) ltac:(done)) as (_ & _ & Hfail).
  assert ((PromptCache.initialize 0 constructed).1 = Return tt) as Hs by run.
  assert ((PromptCache.initialize 0 unreachable).1
          = Throw (TemplateEngineError CACHE_ERROR)) as Hs' by run.
  cbn [TemplateEngineObj.promptCache engine_constructed] in Hok, Hfail.
  rewrite Hs in Hok. rewrite Hs' in Hfail.
  destruct Hok as [Hok Hengines]. destruct Hfail as [Hfail _].
  split; [exact Hok|]. split; [|exact Hfail]. rewrite Hengines. run.
Defined.


Lemma update_is_a_lasting_override_witness :
  let r := TemplateEngine.updateVariableDefinitions 0 1 ready in
  (TemplateEngine.processTemplate 0 "B.md" (IsOptions no_options) None ready).1
  = Return {| processedTemplate := "a and a";
              variablesFound := ["{{x}}"];
              variablesReplaced := ["{{x}}"];
              undefinedVariables := [] |} ∧
  (TemplateEngine.processTemplate 0 "B.md" (IsOptions no_options) None r.2).1
  = Return {| processedTemplate := "b and b";
              variablesFound := ["{{x}}"];
              variablesReplaced := ["{{x}}"];
              undefinedVariables := [] |}.
Proof.
  intros r. split; [run|].
  destruct (update_is_a_lasting_override ready 0 engine0 baseline 1 override "B.md"
              no_options) as (_ & _ & Hsame); [run|run|run|].
  fold r in Hsame. rewrite Hsame. run.
Defined.

Lemma getVariableDefinitions_is_a_copy_witness :
  let r := TemplateEngine.getVariableDefinitions 0 ready in
  r.1 = Return 5 ∧ maps r.2 !! 5 = Some baseline ∧
  (VariableDefinitions.getVariable {| variableMap := 4 |} "{{x}}"
     (JsMap.set 5 "{{x}}" "changed" r.2).2).1 = Return (Some "a").
Proof.
  intros r.
  destruct (getVariableDefinitions_is_a_copy ready 0 engine0 baseline)
    as (Hloc & Hmaps & _ & _ & Hwrite); try run.
  fold r in Hloc, Hmaps. split; [exact Hloc|]. split; [by rewrite Hmaps|].
  apply (Hwrite "{{x}}" "changed" "{{x}}").
Defined.

Lemma object_and_map_variables_agree_witness :
  (TemplateEngine.processTemplateWithVariables 0 "B.md" (inr override) None ready).1
  = (TemplateEngine.processTemplateWithVariables 0 "B.md" (inl 1) None ready).1 ∧
  (TemplateEngine.processTemplateWithVariables 0 "B.md" (inr override) None ready).1
  = Return {| processedTemplate := "b and b";
              variablesFound := ["{{x}}"];
              variablesReplaced := ["{{x}}"];
              undefinedVariables := [] |}.
Proof.
  split; [|run].
  apply (object_and_map_variables_agree ready 0 engine0 baseline 1 override "B.md" None);
    run.
Defined.

Lemma getRequiredVariables_outcome_witness :
  TemplateEngine.getRequiredVariables 0 "E.txt" None ready = (Return [], ready) ∧
  TemplateEngine.getRequiredVariables 0 "Q.txt" None ready
  = (Throw (TemplateEngineError FILE_NOT_FOUND), ready) ∧
  TemplateEngine.getRequiredVariables 0 "E.txt" None constructed
  = (Throw (TemplateEngineError INITIALIZATION_ERROR), constructed).
Proof.
  split; [|split].
  - rewrite (getRequiredVariables_outcome ready 0 engine0 store0); run.
  - rewrite (getRequiredVariables_outcome ready 0 engine0 store0); run.
  - rewrite (getRequiredVariables_outcome constructed 0 engine_constructed store_unready);
      run.
Defined.

Lemma default_tokens_are_placeholders_witness :
  ∃ before body rest,
    "Hello {{name}}, you are a {{role}}." = before +:+ "{{role}}" +:+ rest ∧
    "{{role}}" = "{{" +:+ body +:+ "}}" ∧
    single_line body = true ∧
    no_occurrence_before "}}" (body +:+ "}}") (String.length body) = true.
Proof.
  apply (default_tokens_are_placeholders no_options
           "Hello {{name}}, you are a {{role}}." "{{role}}"); [done|].
  vm_compute. apply list_elem_of_further, list_elem_of_here.
Defined.

Lemma placeholder_is_discovered_witness :
  discovered no_options ("Hello " +:+ "{{" +:+ "name" +:+ "}}" +:+ ".") ≠ [].
Proof. apply (placeholder_is_discovered no_options "Hello " "name" "."); run. Defined.

Lemma failed_start_pins_the_location_witness :
  let r := Index.createAndInitializeTemplateEngine (Some "elsewhere") (Some 0) start in
  r.1 = Throw (TemplateEngineError INITIALIZATION_ERROR) ∧
  readdir (fs r.2) "prompts" = Some listing ∧
  (Index.createAndInitializeTemplateEngine (Some "prompts") (Some 1) r.2).1
  = Throw (TemplateEngineError INITIALIZATION_ERROR).
Proof.
  intros r.
  destruct (failed_start_pins_the_location start (Some "elsewhere") (Some "prompts")
              0 1 baseline override) as (Hfirst & _ & Hsecond); try run.
  split; [exact Hfirst|]. split; [run|exact Hsecond].
Defined.

Lemma literal_value_replaces_every_occurrence_witness :
  (TemplateEngine.processTemplate 0 "B.md" IsUndefined None ready).1
  = Return {| processedTemplate := join "a" [""; " and "] "";
              variablesFound := ["{{x}}"];
              variablesReplaced := ["{{x}}"];
              undefinedVariables := [] |}.
Proof.
  apply (literal_value_replaces_every_occurrence ready 0 engine0 store0 baseline "B.md"
           IsUndefined None "{{x}}" "a" [""; " and "] ""); try run; done.
Defined.

Example replaceAll_twice :
  JsString.replaceAll "{{x}} and {{x}}" "{{x}}" "Z" = "Z and Z".
Proof. by apply (replaceAll_every_occurrence "{{x}}" "Z" ltac:(done) eq_refl [""; " and "] ""). Qed.

Example replaceAll_empty_search :
  JsString.replaceAll "abc" "" "-" = "-a-b-c-".
Proof. reflexivity. Qed.

Example replaceAll_overlap :
  JsString.replaceAll "aaa" "aa" "b" = "ba".
Proof. reflexivity. Qed.

Example replaceAll_dollar :
  JsString.replaceAll "x{{p}}y" "{{p}}" "[$$|$&|$`|$'|$1|$]" = "x[$|{{p}}|x|y|$1|$]y".
Proof. reflexivity. Qed.

Example matches_default :
  DefaultPattern.matches "Hello {{name}}, {{role}} {{name}} {{a}}} {{b
}} {{}}" 0 = ["{{name}}"; "{{role}}"; "{{name}}"; "{{a}}"; "{{}}"].
Proof. reflexivity. Qed.
